(** * Scriptura: a shallow embedding of the report assembler

    The development follows the two implementations of the tool: the
    single-file program [scriptura.py] (module [Single]) and the package
    command line [src/scriptura/cli.py] (module [Pkg]), with their commands
    [init], [lint] and [build].

    - [Str], [Py]: the string operations and builtins that the programs
      call ([replace], [find], [in], [join], [sorted], [lower], [json.dumps]).
    - [Os]: paths, the file system and the HTML trees of the parsers.
    - [Cmd]: commands as functions on a world (working directory, file
      system, console) that return or raise.
    - [Single], [Pkg]: the two programs.  The tools that a program only
      finds installed or not (PyYAML, Playwright, BeautifulSoup, lxml, the
      template engine, git, the diagram tools) are fields of a record
      [env].
    - [Spec], [Example]: notions used in the statements, and concrete
      reports on which the programs are run.
    - the facts, and in [Claims] the properties C1 to C10.

    Characters are Unicode code points below 256, represented by [ascii];
    a Python [str] is a [list ascii].  Dictionaries that are only queried
    with [.get] are [gmap]s; dictionaries that are iterated are association
    lists in insertion order.  Symbolic links, permissions and files that
    are not valid UTF-8 are not part of the model. *)

From Stdlib Require Import Ascii ZArith Lia.
From stdpp Require Import gmap strings list pretty sorting.


Abbreviation text := (list ascii).

(** A literal of the source. *)
Definition txt (s : string) : text := String.list_ascii_of_string s.

Definition LF : ascii := ascii_of_nat 10.

(** ** Python string primitives *)

Module Str.

(** [s.startswith(p)] *)
Fixpoint startswith (s p : text) {struct p} : bool :=
  match p with
  | [] => true
  | a :: p' =>
      match s with
      | [] => false
      | b :: s' => Ascii.eqb a b && startswith s' p'
      end
  end.

(** [old in s] *)
Fixpoint contains (old s : text) : bool :=
  startswith s old ||
  match s with
  | [] => false
  | _ :: s' => contains old s'
  end.

(** [s.find(old)], with [None] for -1. *)
Fixpoint find (old s : text) : option nat :=
  if startswith s old then Some 0
  else match s with
       | [] => None
       | _ :: s' => S <$> find old s'
       end.

(** [s.replace(old, new, 1)]: only the leftmost occurrence is replaced. *)
Fixpoint replace_first (old new s : text) : text :=
  if startswith s old then new ++ drop (length old) s
  else match s with
       | [] => []
       | c :: s' => c :: replace_first old new s'
       end.

(** [s.replace(old, new)] for a non-empty [old]: scan from the left; at a
    match emit [new] and skip the matched characters ([skip] counts the
    characters of the current match that are still to be dropped). *)
Fixpoint replace_from (old new : text) (skip : nat) (s : text) : text :=
  match s with
  | [] => []
  | c :: s' =>
      match skip with
      | S k => replace_from old new k s'
      | O =>
          if startswith s old
          then new ++ replace_from old new (length old - 1) s'
          else c :: replace_from old new 0 s'
      end
  end.

(** [s.replace(old, new)]; an empty [old] matches before every character
    and at the end. *)
Definition replace (old new s : text) : text :=
  match old with
  | [] => new ++ flat_map (fun c => c :: new) s
  | _ :: _ => replace_from old new 0 s
  end.

(** [sep.join(parts)] *)
Fixpoint join (sep : text) (parts : list text) : text :=
  match parts with
  | [] => []
  | [p] => p
  | p :: rest => p ++ sep ++ join sep rest
  end.

(** Declarative reading of [old in s]. *)
Definition occurs (old s : text) : Prop := ∃ pre post, s = pre ++ old ++ post.

End Str.

(** ** Python builtins used by the tool *)

Module Py.

(** [a < b] on strings: lexicographic on code points. *)
Fixpoint text_lt (a b : text) : bool :=
  match a, b with
  | _, [] => false
  | [], _ :: _ => true
  | x :: a', y :: b' =>
      (nat_of_ascii x <? nat_of_ascii y) || Ascii.eqb x y && text_lt a' b'
  end.

(** [c.lower()] for a code point below 256: A-Z, and the capital letters
    U+00C0..U+00DE except the multiplication sign U+00D7. *)
Definition lower_char (c : ascii) : ascii :=
  let n := nat_of_ascii c in
  if (65 <=? n) && (n <=? 90) || (192 <=? n) && (n <=? 222) && negb (n =? 215)
  then ascii_of_nat (n + 32) else c.

(** [s.lower()] *)
Definition lower (s : text) : text := map lower_char s.

(** The regular expression class [\d] below code point 256. *)
Definition is_digit (c : ascii) : bool :=
  let n := nat_of_ascii c in (48 <=? n) && (n <=? 57).

(** [int(ds)] for a string of decimal digits. *)
Definition int (ds : text) : N :=
  foldl (λ acc d, (10 * acc + N.of_nat (nat_of_ascii d - 48))%N) 0%N ds.

(** The longest prefix of digits and the rest. *)
Fixpoint span_digits (s : text) : text * text :=
  match s with
  | [] => ([], [])
  | c :: s' =>
      if is_digit c then let '(ds, r) := span_digits s' in (c :: ds, r)
      else ([], s)
  end.

Section sorted.
Context {A K : Type} (lt : K → K → bool) (key : A → K).

  (** [x] goes before the first element whose key is not smaller: it
      precedes the elements with an equal key, which came after it. *)
Fixpoint insert_sorted (x : A) (l : list A) : list A :=
    match l with
    | [] => [x]
    | y :: l' =>
        if lt (key y) (key x) then y :: insert_sorted x l' else x :: l
    end.

  (** [sorted(l, key=key)]: a stable sort that compares keys with [<]. *)
Definition sorted (l : list A) : list A := foldr insert_sorted [] l.
End sorted.

(** [a or b] on optional strings: [None] and the empty string are falsy. *)
Definition truthy (o : option text) : bool :=
  match o with Some (_ :: _) => true | _ => false end.

Definition or_else (a b : option text) : option text :=
  if truthy a then a else b.

(** [(a1, a2) < (b1, b2)] on a pair of an integer and a string. *)
Definition pair_lt (a b : N * text) : bool :=
  (a.1 <? b.1)%N || (a.1 =? b.1)%N && text_lt a.2 b.2.

Definition hex_digit (n : nat) : ascii :=
  nth n (txt "0123456789abcdef") (ascii_of_nat 48).

Definition BACKSLASH : ascii := ascii_of_nat 92.

(** One character of [json.dumps(s)] (with [ensure_ascii]): the quote,
    the backslash and the characters outside space..~ are escaped. *)
Definition json_char (c : ascii) : text :=
  let n := nat_of_ascii c in
  if (n =? 34) || (n =? 92) then [BACKSLASH; c]
  else if n =? 10 then BACKSLASH :: txt "n"
  else if n =? 13 then BACKSLASH :: txt "r"
  else if n =? 9 then BACKSLASH :: txt "t"
  else if n =? 8 then BACKSLASH :: txt "b"
  else if n =? 12 then BACKSLASH :: txt "f"
  else if (32 <=? n) && (n <=? 126) then [c]
  else BACKSLASH :: txt "u00" ++ [hex_digit (n / 16); hex_digit (n mod 16)].

(** [json.dumps(s)] for a string. *)
Definition json_str (s : text) : text :=
  [ascii_of_nat 34] ++ flat_map json_char s ++ [ascii_of_nat 34].

(** [json.dumps(l)] for a list of strings. *)
Definition json_list (l : list text) : text :=
  txt "[" ++ Str.join (txt ", ") (map json_str l) ++ txt "]".

End Py.

(** ** Paths, file system, console and the command monad *)

Module Os.

(** A resolved absolute path: its components below the root. *)
Abbreviation path := (list text).

(** A pure path as [pathlib] keeps it: whether it is anchored at the root,
    and its components ([..] is kept until the path is resolved). *)
Record ppath := PPath { absolute : bool; parts : list text }.

Definition SLASH : ascii := ascii_of_nat 47.

(** [s.split(sep)] on one separator character. *)
Fixpoint split (sep : ascii) (s : text) : list text :=
  match s with
  | [] => [[]]
  | c :: s' =>
      if Ascii.eqb c sep then [] :: split sep s'
      else match split sep s' with
           | [] => [[c]]
           | w :: ws => (c :: w) :: ws
           end
  end.

(** [pathlib.Path(s)]: empty components and [.] are dropped. *)
Definition parse_path (s : text) : ppath :=
  {| absolute := Str.startswith s [SLASH];
     parts := filter (λ c, c ≠ [] ∧ c ≠ txt ".") (split SLASH s) |}.

(** [p / q] *)
Definition join_path (p q : ppath) : ppath :=
  if absolute q then q
  else {| absolute := absolute p; parts := parts p ++ parts q |}.

(** Removal of [..] components, left to right (symbolic links are not
    part of the model). *)
Definition collapse (cs : list text) : path :=
  reverse (foldl (λ acc c, if decide (c = txt "..") then tail acc else c :: acc) [] cs).

(** [p.resolve()] in the working directory [cwd]. *)
Definition resolve (cwd : path) (p : ppath) : path :=
  collapse ((if absolute p then [] else cwd) ++ parts p).

(** [p.parent] of a resolved path. *)
Definition parent (p : path) : path := take (length p - 1) p.

(** The pure path of a resolved one. *)
Definition pure (p : path) : ppath := PPath true p.

(** [p.relative_to(base)] succeeds exactly when the components of [base]
    are a prefix of those of [p]. *)
Definition relative_to (p base : ppath) : option (list text) :=
  if bool_decide (absolute p = absolute base) &&
     bool_decide (take (length (parts base)) (parts p) = parts base)
  then Some (drop (length (parts base)) (parts p))
  else None.

Inductive node := File (content : text) | Dir.

(** The file system: the entries in the order in which the operating system
    enumerates them; the first entry of a path is the one that counts. *)
Abbreviation fs := (list (path * node)).

Fixpoint lookup (f : fs) (p : path) : option node :=
  match f with
  | [] => None
  | (q, n) :: f' => if decide (q = p) then Some n else lookup f' p
  end.

(** The root always exists. *)
Definition node_at (f : fs) (p : path) : option node :=
  match p with
  | [] => Some Dir
  | _ :: _ => lookup f p
  end.

Definition exists_ (f : fs) (p : path) : bool :=
  match node_at f p with Some _ => true | None => false end.

(** Create or overwrite the entry of [p]; a new entry goes to the end. *)
Fixpoint store (p : path) (n : node) (f : fs) : fs :=
  match f with
  | [] => [(p, n)]
  | (q, m) :: f' =>
      if decide (q = p) then (q, n) :: f' else (q, m) :: store p n f'
  end.

(** [p] is [q] or lies below [q]. *)
Definition under (q p : path) : bool := bool_decide (take (length q) p = q).

(** The entries left when the tree at [p] is removed. *)
Definition remove_tree (p : path) (f : fs) : fs :=
  filter (λ e, under p e.1 = false) f.

(** The names found directly in directory [d], in enumeration order and
    without repetition. *)
Definition listdir (f : fs) (d : path) : list text :=
  remove_dups
    (omap (λ e : path * node,
             match last e.1 with
             | Some n => if decide (e.1 = d ++ [n]) then Some n else None
             | None => None
             end) f).

(** One item of a [glob] pattern for the names in one directory
    ([fnmatch] syntax after parsing). *)
Inductive glob_item :=
  | Star
  | AnyChar
  | Lit (c : ascii)
  | Class (negated : bool) (members : list ascii).

Fixpoint glob_match (pat : list glob_item) (s : text) {struct pat} : bool :=
  match pat with
  | [] => match s with [] => true | _ => false end
  | Star :: pat' =>
      (fix star (s : text) : bool :=
         glob_match pat' s ||
         match s with [] => false | _ :: s' => star s' end) s
  | AnyChar :: pat' =>
      match s with [] => false | _ :: s' => glob_match pat' s' end
  | Lit c :: pat' =>
      match s with
      | [] => false
      | d :: s' => Ascii.eqb c d && glob_match pat' s'
      end
  | Class neg cs :: pat' =>
      match s with
      | [] => false
      | d :: s' =>
          xorb neg (bool_decide (d ∈ cs)) && glob_match pat' s'
      end
  end.

(** The pattern ["*.html"]. *)
Definition STAR_HTML : list glob_item := Star :: map Lit (txt ".html").

(** [d.glob(pattern)]: the names of the matching entries of [d]. *)
Definition glob (f : fs) (d : path) (pat : list glob_item) : list text :=
  filter (λ n, glob_match pat n = true) (listdir f d).

(** Exceptions that leave a command. *)
Inductive exn :=
  | SystemExit (code : Z)
  | TyperExit (code : Z)
  | FileNotFoundError
  | FileExistsError
  | IsADirectoryError
  | NotADirectoryError
  | ValueError
  | YAMLError
  | TemplateError
  | BrowserError.

(** [os.mkdir] driven from the root: missing directories are created,
    existing directories are kept, a file in the way is an error.
    [visited] is the part of the path already known to be a directory. *)
Fixpoint make_dirs (visited rest : path) (f : fs) : exn + fs :=
  match rest with
  | [] => inr f
  | c :: rest' =>
      let p := visited ++ [c] in
      match node_at f p with
      | Some Dir => make_dirs p rest' f
      | Some (File _) =>
          inl (match rest' with [] => FileExistsError | _ => NotADirectoryError end)
      | None => make_dirs p rest' (store p Dir f)
      end
  end.

(** [p.mkdir(parents=True, exist_ok=True)] *)
Definition mkdir_parents (p : path) (f : fs) : exn + fs := make_dirs [] p f.

(** [p.mkdir(exist_ok=ok)] *)
Definition mkdir (ok : bool) (p : path) (f : fs) : exn + fs :=
  match node_at f p with
  | Some Dir => if ok then inr f else inl FileExistsError
  | Some (File _) => inl FileExistsError
  | None =>
      match node_at f (parent p) with
      | Some Dir => inr (store p Dir f)
      | Some (File _) => inl NotADirectoryError
      | None => inl FileNotFoundError
      end
  end.

(** [p.mkdir(parents=True)]: as [mkdir_parents], but [p] must be new. *)
Definition mkdir_parents_new (p : path) (f : fs) : exn + fs :=
  match node_at f p with
  | Some _ => inl FileExistsError
  | None => mkdir_parents p f
  end.

(** [p.read_text(encoding="utf-8")] *)
Definition read_file (p : path) (f : fs) : exn + text :=
  match node_at f p with
  | Some (File s) => inr s
  | Some Dir => inl IsADirectoryError
  | None => inl FileNotFoundError
  end.

(** [p.write_text(s, encoding="utf-8")]: the directory must exist. *)
Definition write_file (p : path) (s : text) (f : fs) : exn + fs :=
  match node_at f p with
  | Some Dir => inl IsADirectoryError
  | Some (File _) => inr (store p (File s) f)
  | None =>
      match node_at f (parent p) with
      | Some Dir => inr (store p (File s) f)
      | Some (File _) => inl NotADirectoryError
      | None => inl FileNotFoundError
      end
  end.

(** [shutil.rmtree(p)] *)
Definition rmtree (p : path) (f : fs) : exn + fs :=
  match node_at f p with
  | Some Dir => inr (remove_tree p f)
  | Some (File _) => inl NotADirectoryError
  | None => inl FileNotFoundError
  end.

(** The entries below [src], re-rooted at [dst]. *)
Definition copied_entries (src dst : path) (f : fs) : fs :=
  omap (λ e : path * node,
          if under src e.1 && negb (bool_decide (e.1 = src))
          then Some (dst ++ drop (length src) e.1, e.2) else None) f.

(** [shutil.copytree(src, dst)]: [dst] must be new. *)
Definition copytree (src dst : path) (f : fs) : exn + fs :=
  match node_at f src with
  | None => inl FileNotFoundError
  | Some (File _) => inl NotADirectoryError
  | Some Dir =>
      match mkdir_parents_new dst f with
      | inl e => inl e
      | inr f' => inr (foldl (λ g e, store e.1 e.2 g) f' (copied_entries src dst f))
      end
  end.

(** *** The HTML trees of the parsers *)

#[warnings="-register-all"]
Inductive dom :=
  | Element (tag : text) (children : list dom)
  | Text (s : text)
  | Comment (s : text).

(** Python's [str.isspace] on one character. *)
Definition is_space (c : ascii) : bool :=
  let n := nat_of_ascii c in
  (9 <=? n) && (n <=? 13) || (28 <=? n) && (n <=? 32) || (n =? 133) || (n =? 160).

(** [s.strip()] *)
Definition strip (s : text) : text :=
  let drop_front := fix go (s : text) : text :=
    match s with
    | [] => []
    | c :: s' => if is_space c then go s' else s
    end in
  reverse (drop_front (reverse (drop_front s))).

(** [d.find_all(tags)] from [d] itself downwards, in document order. *)
Fixpoint find_all (tags : list text) (d : dom) : list dom :=
  match d with
  | Element t cs =>
      (if bool_decide (t ∈ tags) then [d] else []) ++ flat_map (find_all tags) cs
  | Text _ | Comment _ => []
  end.

(** [soup.find(tag)] on a parsed document. *)
Definition soup_find (tag : text) (doc : list dom) : option dom :=
  head (flat_map (find_all [tag]) doc).

(** [soup.find_all(tags)] on a parsed document. *)
Definition soup_find_all (tags : list text) (doc : list dom) : list dom :=
  flat_map (find_all tags) doc.

Definition children (d : dom) : list dom :=
  match d with Element _ cs => cs | _ => [] end.

Definition tag_name (d : dom) : text :=
  match d with Element t _ => t | _ => [] end.

(** [tag.find(name)]: the first proper descendant with that name. *)
Definition tag_find (name : text) (d : dom) : option dom :=
  head (flat_map (find_all [name]) (children d)).

(** The text nodes below [d], in document order (comments are skipped). *)
Fixpoint strings (d : dom) : list text :=
  match d with
  | Element _ cs => flat_map strings cs
  | Text s => [s]
  | Comment _ => []
  end.

(** [tag.get_text(strip=True)] *)
Definition get_text_strip (d : dom) : text :=
  concat (filter (λ s, s ≠ []) (map strip (strings d))).

End Os.

(** ** Commands: state, console and exceptions *)

Module Cmd.
Import Os.

(** What the single-file [lint] appends to [errors]. *)
Inductive lint_error :=
  | NoSectionsDir                 (* sections/ is missing *)
  | SectionsEmpty                 (* sections/ has no *.html *)
  | MissingSection (name : text)  (* "<name>: <section> yok." *)
  | MissingH1 (name : text)       (* "<name>: <h1> yok." *)
  | EmptySection (name : text).   (* "<name>: section content is empty" *)

Global Instance lint_error_eq_dec : EqDecision lint_error.
Proof. solve_decision. Defined.

(** The lines the commands print; each constructor stands for one
    format string of the source, with the values it interpolates. *)
Inductive message :=
  (* scriptura.py *)
  | YamlRequired
  | AlreadyExists (name : text)
  | ScaffoldCreated (name : text)
  | SectionNotFound (s : text)
  | AssembledHtml (rel : list text)
  | PlaywrightMissing
  | HtmlStillProduced
  | PdfWritten (rel : list text)
  | OrderWarning
  | LintError (e : lint_error)
  | LintPassed
  (* cli.py *)
  | PkgAlreadyExists (name : text)
  | PkgReady (name : text)
  | PkgSectionsEmpty
  | PkgMermaidMissing (name : text)
  | PkgPlantumlMissing (name : text)
  | PkgHtml (p : ppath)
  | PkgPlaywrightMissing
  | PkgPdf (p : ppath)
  | PkgStyleMissing (css : text)
  | PkgParseError (name : text)
  | PkgNeedH1 (name : text)
  | PkgHierarchySkip (name : text)
  | PkgLintFailed (count : nat)
  | PkgLintPassed.

Inductive stream := Stdout | Stderr.

Record world := World {
  cwd : path;
  files : fs;
  console : list (stream * message)
}.

Inductive outcome (A : Type) :=
  | Ok (a : A)
  | Raise (e : exn).
Arguments Ok {A} a.
Arguments Raise {A} e.

(** A command: it runs in a world, and either returns or raises; what it
    did before raising stays done. *)
Definition M (A : Type) : Type := world → outcome A * world.

Definition ret {A} (a : A) : M A := λ w, (Ok a, w).

Definition bind {A B} (c : M A) (k : A → M B) : M B :=
  λ w, match c w with
       | (Ok a, w') => k a w'
       | (Raise e, w') => (Raise e, w')
       end.

Definition raise {A} (e : exn) : M A := λ w, (Raise e, w).

Notation "'let*' x := c1 'in' c2" := (bind c1 (λ x, c2))
  (at level 10, x pattern, c1 at level 100, c2 at level 200,
   format "'[v' 'let*'  x  :=  c1  'in' '/' c2 ']'").

Definition get_cwd : M path := λ w, (Ok (cwd w), w).
Definition get_files : M fs := λ w, (Ok (files w), w).
Definition put_files (f : fs) : M unit :=
  λ w, (Ok tt, {| cwd := cwd w; files := f; console := console w |}).

(** [click.echo] / [typer.secho] *)
Definition echo (s : stream) (m : message) : M unit :=
  λ w, (Ok tt, {| cwd := cwd w; files := files w; console := console w ++ [(s, m)] |}).

Definition of_sum {A} (r : exn + A) : M A :=
  match r with inl e => raise e | inr a => ret a end.

(** A file-system query. *)
Definition query {A} (op : fs → exn + A) : M A :=
  let* f := get_files in of_sum (op f).

(** A file-system update. *)
Definition update (op : fs → exn + fs) : M unit :=
  let* f := get_files in let* f' := of_sum (op f) in put_files f'.

(** The operating system resolves a path in the working directory. *)
Definition locate (p : ppath) : M path :=
  let* d := get_cwd in ret (resolve d p).

Definition path_exists (p : ppath) : M bool :=
  let* q := locate p in let* f := get_files in ret (exists_ f q).

Definition pparent (p : ppath) : ppath :=
  {| absolute := absolute p; parts := take (length (parts p) - 1) (parts p) |}.

(** [for x in l: acc = body(acc, x)] *)
Fixpoint fold_cmd {A S} (body : S → A → M S) (acc : S) (l : list A) : M S :=
  match l with
  | [] => ret acc
  | x :: l' => let* acc' := body acc x in fold_cmd body acc' l'
  end.

(** [[body(x) for x in l]] *)
Fixpoint map_cmd {A B} (body : A → M B) (l : list A) : M (list B) :=
  match l with
  | [] => ret []
  | x :: l' => let* y := body x in let* ys := map_cmd body l' in ret (y :: ys)
  end.

(** [for x in l: body(x)] *)
Definition for_each {A} (body : A → M unit) (l : list A) : M unit :=
  fold_cmd (λ _ x, body x) tt l.

(** The exit status of the process. *)
Definition exit_status {A} (r : outcome A) : Z :=
  match r with
  | Ok _ => 0
  | Raise (SystemExit n) => n
  | Raise (TyperExit n) => n
  | Raise _ => 1
  end.

End Cmd.

(** ** The single-file program, [scriptura.py] *)

Module Single.
Import Os Cmd.

Definition DQ : ascii := ascii_of_nat 34.

(** *** Section discovery *)

Definition SENTINEL : N := 1000000.

(** [re.match(r"^(\d+)[-_]", name)] and [int(m.group(1))] *)
Definition numeric_prefix (name : text) : option N :=
  match Py.span_digits name with
  | ([], _) | (_, []) => None
  | (ds, c :: _) =>
      if Ascii.eqb c "-" || Ascii.eqb c "_" then Some (Py.int ds) else None
  end.

(** The local function [key] of [discover_sections]. *)
Definition key (name : text) : N * text :=
  (default SENTINEL (numeric_prefix name), Py.lower name).

(** [discover_sections] on the names that [glob] produced. *)
Definition section_order (names : list text) : list text :=
  map (λ n, txt "sections/" ++ n) (Py.sorted Py.pair_lt key names).

Definition discover_sections (sec_dir : path) : M (list text) :=
  let* f := get_files in
  ret (section_order (glob f sec_dir STAR_HTML)).

(** *** Configuration *)

Record Config := {
  title : text;
  subtitle : text;
  prepared : text;
  kicker : text;
  sections : option (list text);
  theme : option (gmap string text)
}.

(** The keys of the parsed YAML document that [load_config] reads. *)
Record yaml_data := {
  y_title : option text;
  y_subtitle : option text;
  y_prepared : option text;
  y_kicker : option text;
  y_sections : option (list text);
  y_theme : option (gmap string text)
}.

(** What the program finds installed, and what those tools do. *)
Record env := {
  yaml_available : bool;
  yaml_safe_load : text → exn + yaml_data;
  playwright_available : bool;
  print_pdf : fs → path → exn + text;
  bs4_available : bool;
  html_parser : text → list dom;
  git_installed : bool;
  git_inside_work_tree : fs → path → bool;
  git_init : fs → path → fs
}.

Definition read_text (p : ppath) : M text :=
  let* q := locate p in query (read_file q).

Definition write_text (p : ppath) (s : text) : M unit :=
  let* d := locate (pparent p) in
  let* _ := update (mkdir_parents d) in
  let* q := locate p in
  update (write_file q s).

Definition load_config (e : env) (p : ppath) : M Config :=
  if negb (yaml_available e) then
    let* _ := echo Stderr YamlRequired in raise (SystemExit 1)
  else
    let* s := read_text p in
    let* data := of_sum (yaml_safe_load e s) in
    ret {| title := default [] (y_title data);
           subtitle := default [] (y_subtitle data);
           prepared := default [] (y_prepared data);
           kicker := default [] (y_kicker data);
           sections := y_sections data;
           theme := y_theme data |}.

(** *** Assembly *)

Definition PLACEHOLDERS : list (text * (Config → text)) :=
  [ (txt "[TITLE]", title); (txt "[SUBTITLE]", subtitle);
    (txt "[PREPARED]", prepared); (txt "[KICKER]", kicker) ].

(** [getattr(cfg, key) or ""] is the field itself: it is a string. *)
Definition apply_placeholders (html : text) (cfg : Config) : text :=
  foldl (λ html tk, Str.replace tk.1 (tk.2 cfg) html) html PLACEHOLDERS.

Definition boot_script (cfg : Config) : text :=
  [LF] ++ txt "<script>" ++ [LF] ++
  txt "window.__CONFIG__ = {" ++ [LF] ++
  txt "  title: " ++ Py.json_str (title cfg) ++ txt "," ++ [LF] ++
  txt "  subtitle: " ++ Py.json_str (subtitle cfg) ++ txt "," ++ [LF] ++
  txt "  prepared: " ++ Py.json_str (prepared cfg) ++ txt "," ++ [LF] ++
  txt "  kicker: " ++ Py.json_str (kicker cfg) ++ txt "," ++ [LF] ++
  txt "  sections: " ++ Py.json_list (default [] (sections cfg)) ++ [LF] ++
  txt "};" ++ [LF] ++
  txt "</script>" ++ [LF].

Definition inject_boot_config (html : text) (cfg : Config) : text :=
  Str.replace (txt "</head>") (boot_script cfg ++ [LF] ++ txt "</head>") html.

(** [f'href="{v}"'] *)
Definition href (v : text) : text := txt "href=" ++ [DQ] ++ v ++ [DQ].

(** The dictionary [mapping] of [override_theme_links], in its order. *)
Definition theme_mapping (theme : gmap string text) : list (text * option text) :=
  [ (txt "style/general.css", theme !! "general");
    (txt "style/numbering.css", theme !! "numbering");
    (txt "style/footer.css", theme !! "footer");
    (txt "style/cover.css", theme !! "cover");
    (txt "style/last-page.css", Py.or_else (theme !! "last") (theme !! "last-page")) ].

(** One round of the loop: [if remote: html = html.replace(...)]. *)
Definition override_step (html : text) (lr : text * option text) : text :=
  if Py.truthy lr.2
  then Str.replace (href lr.1) (href (default [] lr.2)) html
  else html.

Definition override_theme_links (html : text) (theme : gmap string text) : text :=
  foldl override_step html (theme_mapping theme).

(** A dictionary is truthy when it is not empty. *)
Definition theme_given (cfg : Config) : option (gmap string text) :=
  match theme cfg with
  | Some t => if decide (t = ∅) then None else Some t
  | None => None
  end.

(** [assemble_html] once the wrapper has been read. *)
Definition assemble (cfg : Config) (html : text) : text :=
  let html := apply_placeholders html cfg in
  let html := inject_boot_config html cfg in
  match theme_given cfg with
  | Some t => override_theme_links html t
  | None => html
  end.

Definition assemble_html (cfg : Config) (wrapper_path : ppath) : M text :=
  let* html := read_text wrapper_path in
  ret (assemble cfg html).

(** *** PDF *)

Definition export_pdf (e : env) (html_path pdf_path : ppath) : M unit :=
  if negb (playwright_available e) then
    let* _ := echo Stderr PlaywrightMissing in
    echo Stderr HtmlStillProduced
  else
    let* d := locate (pparent pdf_path) in
    let* _ := update (mkdir_parents d) in
    let* h := locate html_path in
    let* f := get_files in
    let* pdf := of_sum (print_pdf e f h) in
    let* q := locate pdf_path in
    update (write_file q pdf).

(** *** build *)

Definition MARKER : text := txt "<section id=" ++ [DQ] ++ txt "end" ++ [DQ].
Definition BODY_END : text := txt "</body>".

(** Step 5 of [build]: the sections go before the end marker, or else
    before the closing body tag. *)
Definition place_sections (assembled combined : text) : text :=
  if Str.contains MARKER assembled
  then Str.replace_first MARKER (combined ++ [LF] ++ MARKER) assembled
  else Str.replace_first BODY_END (combined ++ [LF] ++ BODY_END) assembled.

(** [cfg.sections] is falsy when it is [None] or empty. *)
Definition sections_given (cfg : Config) : bool :=
  match sections cfg with Some (_ :: _) => true | _ => false end.

Definition with_sections (cfg : Config) (l : list text) : Config :=
  {| title := title cfg; subtitle := subtitle cfg; prepared := prepared cfg;
     kicker := kicker cfg; sections := Some l; theme := theme cfg |}.

(** One round of the loop of step 4: the file of section [s], if any. *)
Definition resolve_section (base_dir : path) (html_out s : text) : M (option path) :=
  let* d := get_cwd in
  let* f := get_files in
  let p := resolve d (join_path (pure base_dir) (parse_path s)) in
  let p :=
    if exists_ f p then p
    else
      let alt := resolve d (join_path
                   (pure (parent (resolve d (join_path (pure base_dir) (parse_path html_out)))))
                   (parse_path s)) in
      if exists_ f alt then alt else p in
  if exists_ f p then ret (Some p)
  else let* _ := echo Stderr (SectionNotFound s) in ret None.

Definition resolve_sections (base_dir : path) (html_out : text) (l : list text)
  : M (list path) :=
  fold_cmd (λ acc s,
              let* r := resolve_section base_dir html_out s in
              ret (match r with Some p => acc ++ [p] | None => acc end)) [] l.

Definition echo_relative (mk : list text → message) (p base : ppath) : M unit :=
  match relative_to p base with
  | Some rel => echo Stdout (mk rel)
  | None => raise ValueError
  end.

(** Steps 1 to 6 of [build], up to the line that reports the HTML file;
    [build] below continues with the PDF. *)
Definition build_html (e : env) (config out html_out : text) : M unit :=
  let* d := get_cwd in
  let base_dir := parent (resolve d (parse_path config)) in
  let* cfg := load_config e (parse_path config) in
  let* cfg :=
    (if sections_given cfg then ret cfg
     else let* found := discover_sections (base_dir ++ [txt "sections"]) in
          ret (with_sections cfg found)) in
  let cfg_injected := with_sections cfg [] in
  let* assembled :=
    assemble_html cfg_injected (join_path (pure base_dir) (parse_path (txt "report.html"))) in
  let* sections_abs := resolve_sections base_dir html_out (default [] (sections cfg)) in
  let* texts := map_cmd (λ p, query (read_file p)) sections_abs in
  let combined := Str.join [LF] texts in
  let assembled := place_sections assembled combined in
  let out_html := join_path (pure base_dir) (parse_path html_out) in
  let* _ := write_text out_html assembled in
  echo_relative AssembledHtml out_html (pure base_dir).

Definition build (e : env) (config out html_out : text) : M unit :=
  let* d := get_cwd in
  let base_dir := parent (resolve d (parse_path config)) in
  let out_html := join_path (pure base_dir) (parse_path html_out) in
  let out_pdf := join_path (pure base_dir) (parse_path out) in
  let* _ := build_html e config out html_out in
  let* _ := export_pdf e out_html out_pdf in
  let* there := path_exists out_pdf in
  if there then echo_relative PdfWritten out_pdf (pure base_dir) else ret tt.

(** *** lint *)

(** The body of the loop over the section files: what one file adds to
    [errors]. *)
Definition file_errors (e : env) (name content : text) : list lint_error :=
  if bs4_available e then
    match soup_find (txt "section") (html_parser e content) with
    | None => [MissingSection name]
    | Some sect =>
        (match tag_find (txt "h1") sect with
         | None => [MissingH1 name]
         | Some _ => []
         end) ++
        (match get_text_strip sect with
         | [] => [EmptySection name]
         | _ :: _ => []
         end)
    end
  else
    (if Str.contains (txt "<section") content then [] else [MissingSection name]) ++
    (if Str.contains (txt "<h1") content then [] else [MissingH1 name]).

(** The checks of [lint]; the result is the list [errors]. *)
Definition lint_errors (e : env) (config : text) : M (list lint_error) :=
  let* d := get_cwd in
  let base := parent (resolve d (parse_path config)) in
  let sec_dir := base ++ [txt "sections"] in
  let* f := get_files in
  if negb (exists_ f sec_dir) then ret [NoSectionsDir]
  else
    let names := glob f sec_dir STAR_HTML in
    let errors := match names with [] => [SectionsEmpty] | _ => [] end in
    let* ordered := discover_sections sec_dir in
    let* _ :=
      (if bool_decide (map (λ n, txt "sections/" ++ n) (Py.sorted Py.text_lt id names) = ordered)
       then ret tt else echo Stdout OrderWarning) in
    fold_cmd (λ errors name,
                let* content := query (read_file (sec_dir ++ [name])) in
                ret (errors ++ file_errors e name content))
             errors names.

Definition lint (e : env) (config : text) : M unit :=
  let* errors := lint_errors e config in
  match errors with
  | [] => echo Stdout LintPassed
  | _ :: _ =>
      let* _ := for_each (λ err, echo Stdout (LintError err)) errors in
      raise (SystemExit 1)
  end.

(** *** init *)

Definition lines (l : list text) : text := flat_map (λ s, s ++ [LF]) l.

Definition sample_section (heading paragraph : string) : text :=
  lines [ txt "<section class=" ++ [DQ] ++ txt "page-break" ++ [DQ] ++ txt ">";
          txt "  <h1>" ++ txt heading ++ txt "</h1>";
          txt "  <p>" ++ txt paragraph ++ txt "</p>";
          txt "</section>" ].

Definition SAMPLE_SECTIONS : list (text * text) :=
  [ (txt "01-introduction.html",
     sample_section "Introduction" "Project goals, scope and context.");
    (txt "02-methodology.html",
     sample_section "Methodology" "Approach, data and tools.");
    (txt "03-results.html",
     sample_section "Results" "Key findings and figures.") ].

Definition GITIGNORE : text :=
  lines [txt "build/"; txt "node_modules/"; txt "*.tmp.html"; txt ".DS_Store"].

Section init.
  (** The two templates hold characters above code point 255; their text
      is left open. *)
Variables (SCAFFOLD_REPORT_HTML SCAFFOLD_CONFIG : text).

Definition sub (target : ppath) (s : string) : ppath :=
    join_path target (parse_path (txt s)).

  (** The directories and files of [init], after the existence check. *)
Definition scaffold (target : ppath) : M unit :=
    let* p := locate (sub target "sections") in
    let* _ := update (mkdir_parents p) in
    let* p := locate (sub target "style") in
    let* _ := update (mkdir_parents p) in
    let* p := locate (sub target "images") in
    let* _ := update (mkdir true p) in
    let* p := locate (sub target "diagrams") in
    let* _ := update (mkdir true p) in
    let* p := locate (sub target "build") in
    let* _ := update (mkdir true p) in
    let* _ := write_text (sub target "report.html") SCAFFOLD_REPORT_HTML in
    let* _ := write_text (sub target "config.yaml") SCAFFOLD_CONFIG in
    let* _ := for_each (λ fc : text * text,
                write_text (join_path target (parse_path (txt "sections/" ++ fc.1))) fc.2)
              SAMPLE_SECTIONS in
    write_text (sub target ".gitignore") GITIGNORE.

Definition git_step (e : env) (target : ppath) : M unit :=
    if negb (git_installed e) then raise FileNotFoundError
    else
      let* p := locate target in
      let* f := get_files in
      if git_inside_work_tree e f p then ret tt
      else put_files (git_init e f p).

(** [raise SystemExit(message)] prints the message on the error stream and
    ends the process with status 1. *)
Definition init (e : env) (name : text) (force git : bool) : M unit :=
    let* d := get_cwd in
    let target := join_path (pure d) (parse_path name) in
    let* there := path_exists target in
    let* _ :=
      (if there && negb force then
         let* _ := echo Stderr (AlreadyExists name) in raise (SystemExit 1)
       else ret tt) in
    let* there := path_exists target in
    let* _ :=
      (if there && force then
         let* p := locate target in update (rmtree p)
       else ret tt) in
    let* _ := scaffold target in
    let* _ := (if git then git_step e target else ret tt) in
    echo Stdout (ScaffoldCreated name).
End init.

End Single.

(** ** The package command line, [src/scriptura/cli.py] *)

Module Pkg.
Import Os Cmd.

(** A YAML scalar and [str(val)]. *)
Inductive scalar :=
  | SStr (s : text)
  | SInt (n : Z)
  | SBool (b : bool)
  | SNull.

Definition py_str (v : scalar) : text :=
  match v with
  | SStr s => s
  | SInt n => txt (pretty n)
  | SBool true => txt "True"
  | SBool false => txt "False"
  | SNull => txt "None"
  end.

(** A dictionary in insertion order. *)
Abbreviation dict := (list (text * scalar)).

Fixpoint dict_get (d : dict) (k : text) : option scalar :=
  match d with
  | [] => None
  | (k', v) :: d' => if decide (k' = k) then Some v else dict_get d' k
  end.

(** [d[k] = v]: an existing key keeps its place, a new key goes last. *)
Fixpoint dict_set (k : text) (v : scalar) (d : dict) : dict :=
  match d with
  | [] => [(k, v)]
  | (k', v') :: d' =>
      if decide (k' = k) then (k', v) :: d' else (k', v') :: dict_set k v d'
  end.

(** [d.update(extra)] *)
Definition dict_update (d extra : dict) : dict :=
  foldl (λ d kv, dict_set kv.1 kv.2 d) d extra.

(** The keys of [config.yaml] that the commands read. *)
Record config := {
  meta : dict;
  placeholders : option dict;
  section_glob : option (list glob_item);
  theme_base_url : option text;
  theme_local_dir : option text
}.

Definition empty_config : config :=
  {| meta := []; placeholders := None; section_glob := None;
     theme_base_url := None; theme_local_dir := None |}.

Record env := {
  yaml_safe_load : text → exn + config;
  render_template : list text → dict → option text → option text → exn + text;
  playwright_available : bool;
  print_pdf : fs → path → exn + text;
  lxml_parser : text → exn + list dom;
  which : text → option text;
  run_mmdc : fs → path → path → fs;
  run_plantuml : fs → path → path → fs;
  git_inside_work_tree : fs → path → bool;
  git_init : fs → path → fs
}.

Definition read_text (p : ppath) : M text :=
  let* q := locate p in query (read_file q).

Definition write_text (p : ppath) (s : text) : M unit :=
  let* q := locate p in update (write_file q s).

Definition read_config (e : env) (p : ppath) : M config :=
  let* there := path_exists p in
  if negb there then ret empty_config
  else let* s := read_text p in of_sum (yaml_safe_load e s).

(** [sorted(d.glob(pattern))]: paths of one directory compare by name. *)
Definition sort_names (names : list text) : list text :=
  Py.sorted Py.text_lt id names.

Definition find_sections (sections_dir : ppath) (pattern : list glob_item)
  : M (list text) :=
  let* d := locate sections_dir in
  let* f := get_files in
  ret (sort_names (glob f d pattern)).

Definition render_report (e : env) (sections_html : list text) (m : dict)
    (theme_base_url href_base : option text) (out_html : ppath) : M unit :=
  let* html := of_sum (render_template e sections_html m theme_base_url href_base) in
  let* d := locate (pparent out_html) in
  let* _ := update (mkdir_parents d) in
  write_text out_html html.

(** The dictionary [mapping] of [substitute_placeholders]. *)
Definition placeholder_mapping (m : dict) (extra : option dict) : dict :=
  dict_update
    [ (txt "TITLE", default (SStr []) (dict_get m (txt "title")));
      (txt "SUBTITLE", default (SStr []) (dict_get m (txt "subtitle")));
      (txt "AUTHOR", default (SStr []) (dict_get m (txt "author")));
      (txt "DATE", default (SStr []) (dict_get m (txt "date"))) ]
    (default [] extra).

(** [f"[{key}]"] *)
Definition token (k : text) : text := txt "[" ++ k ++ txt "]".

Definition substitute_placeholders (s : text) (m : dict) (extra : option dict) : text :=
  foldl (λ s kv, Str.replace (token kv.1) (py_str kv.2) s) s
        (placeholder_mapping m extra).

Definition child (p : ppath) (s : string) : ppath :=
  join_path p (parse_path (txt s)).

(** *** init *)

Section init.
  (** The text that [yaml.safe_dump] gives for the initial configuration. *)
Variable INITIAL_CONFIG_YAML : text.

Definition init (e : env) (report_name : text) : M unit :=
    let r := parse_path report_name in
    let* there := path_exists r in
    if there then
      let* _ := echo Stdout (PkgAlreadyExists report_name) in raise (TyperExit 1)
    else
      let* p := locate (child r "sections") in
      let* _ := update (mkdir_parents_new p) in
      let* p := locate (child r "images") in
      let* _ := update (mkdir false p) in
      let* p := locate (child r "diagrams") in
      let* _ := update (mkdir false p) in
      let* p := locate (child r "style") in
      let* _ := update (mkdir false p) in
      let* _ := write_text (child (child r "sections") "01-introduction.html")
                  (txt "<section><h1>Introduction</h1><p>Start here.</p></section>") in
      let* _ := write_text (child r "config.yaml") INITIAL_CONFIG_YAML in
      let* d := get_cwd in
      let* f := get_files in
      let* _ :=
        (if git_inside_work_tree e f d then ret tt
         else let* p := locate r in put_files (git_init e f p)) in
      echo Stdout (PkgReady report_name).
End init.

(** *** build *)

Definition MMD : list glob_item := Star :: map Lit (txt ".mmd").
Definition PUML : list glob_item := Star :: map Lit (txt ".puml").

(** [Path(name).with_suffix(".svg").name] for a name that ends in [.mmd];
    a name that is only [.mmd] has no suffix to replace. *)
Definition svg_name (name : text) : text :=
  if bool_decide (name = txt ".mmd") then name ++ txt ".svg"
  else take (length name - 4) name ++ txt ".svg".

Definition diagrams (e : env) (rdir dist : ppath) : M unit :=
  let out_d := child (child dist "images") "diagrams" in
  let* od := locate out_d in
  let* _ := update (mkdir_parents od) in
  let* src := locate (child rdir "diagrams") in
  let* f := get_files in
  let* _ := for_each (λ m,
              match which e (txt "mmdc") with
              | Some _ =>
                  let* f := get_files in
                  put_files (run_mmdc e f (src ++ [m]) (od ++ [svg_name m]))
              | None => echo Stdout (PkgMermaidMissing m)
              end) (sort_names (glob f src MMD)) in
  for_each (λ u,
    match which e (txt "plantuml") with
    | Some _ =>
        let* f := get_files in
        put_files (run_plantuml e f od (src ++ [u]))
    | None => echo Stdout (PkgPlantumlMissing u)
    end) (sort_names (glob f src PUML)).

(** The theme step: the directory copied and the value of [href_base]. *)
Definition copy_theme (cfg : config) (rdir dist : ppath) : M (option text) :=
  let local := if Py.truthy (theme_local_dir cfg)
               then Some (join_path rdir (parse_path (default [] (theme_local_dir cfg))))
               else None in
  let* local_there :=
    match local with Some p => path_exists p | None => ret false end in
  if local_there then
    let* src := locate (default rdir local) in
    let* dst := locate (child dist "theme") in
    let* _ := update (copytree src dst) in
    ret (Some (txt "theme"))
  else
    let* style_there := path_exists (child rdir "style") in
    if style_there then
      let* src := locate (child rdir "style") in
      let* dst := locate (child dist "style") in
      let* _ := update (copytree src dst) in
      ret (Some (txt "style"))
    else ret None.

Definition export_pdf (e : env) (out_html out_pdf : ppath) : M unit :=
  if negb (playwright_available e) then
    let* _ := echo Stdout PkgPlaywrightMissing in raise (TyperExit 1)
  else
    let* h := locate out_html in
    let* f := get_files in
    let* pdf := of_sum (print_pdf e f h) in
    let* _ := write_text out_pdf pdf in
    echo Stdout (PkgPdf out_pdf).

(** [build], up to the line that reports the HTML file. *)
Definition build_html (e : env) (report_dir out_dir : text) (generate_diagrams : bool)
  : M ppath :=
  let rdir := parse_path report_dir in
  let* cfg := read_config e (child rdir "config.yaml") in
  let* sections := find_sections (child rdir "sections")
                     (default STAR_HTML (section_glob cfg)) in
  let* _ :=
    (match sections with
     | [] => let* _ := echo Stdout PkgSectionsEmpty in raise (TyperExit 1)
     | _ :: _ => ret tt
     end) in
  let* sections_html :=
    map_cmd (λ n,
      let* html := read_text (join_path (child rdir "sections") (PPath false [n])) in
      ret (substitute_placeholders html (meta cfg) (placeholders cfg))) sections in
  let dist := parse_path out_dir in
  let* there := path_exists dist in
  let* _ := (if there then let* p := locate dist in update (rmtree p) else ret tt) in
  let* p := locate dist in
  let* _ := update (mkdir_parents p) in
  let* images_there := path_exists (child rdir "images") in
  let* _ :=
    (if images_there then
       let* src := locate (child rdir "images") in
       let* dst := locate (child dist "images") in
       update (copytree src dst)
     else ret tt) in
  let* diagrams_there := path_exists (child rdir "diagrams") in
  let* _ :=
    (if generate_diagrams && diagrams_there then diagrams e rdir dist else ret tt) in
  let* href_base := copy_theme cfg rdir dist in
  let out_html := child dist "report.html" in
  let* _ := render_report e sections_html (meta cfg) (theme_base_url cfg) href_base out_html in
  let* _ := echo Stdout (PkgHtml out_html) in
  ret out_html.

Definition build (e : env) (report_dir out_dir : text) (pdf generate_diagrams : bool)
  : M unit :=
  let* out_html := build_html e report_dir out_dir generate_diagrams in
  if pdf then export_pdf e out_html (child (parse_path out_dir) "report.pdf")
  else ret tt.

(** *** lint *)

Definition MUST_CSS : list string :=
  ["general.css"; "numbering.css"; "footer.css"; "cover.css"; "last-page.css"].

Definition HEADINGS : list text := [txt "h1"; txt "h2"; txt "h3"; txt "h4"].

(** The dictionary [level]. *)
Definition level (h : text) : nat :=
  if bool_decide (h = txt "h1") then 1
  else if bool_decide (h = txt "h2") then 2
  else if bool_decide (h = txt "h3") then 3
  else 4.

(** The loop over [hs]: does some heading skip a level? *)
Fixpoint skips_level (last : nat) (hs : list text) : bool :=
  match hs with
  | [] => false
  | h :: hs' =>
      let cur := level h in
      if negb (last =? 0) && (last + 1 <? cur) then true
      else skips_level cur hs'
  end.

(** The lines that one section file makes [lint] print; each of them
    adds one to [errors]. *)
Definition check_section (e : env) (name html : text) : list message :=
  match lxml_parser e html with
  | inl _ => [PkgParseError name]
  | inr soup =>
      let hs := map tag_name (soup_find_all HEADINGS soup) in
      (if bool_decide (txt "h1" ∈ hs) then [] else [PkgNeedH1 name]) ++
      (if skips_level 0 hs then [PkgHierarchySkip name] else [])
  end.

(** The checks of [lint]; the result is the counter [errors]. *)
Definition lint_count (e : env) (report_dir : text) : M nat :=
  let rdir := parse_path report_dir in
  let* sections := find_sections (child rdir "sections") STAR_HTML in
  let* errors :=
    fold_cmd (λ errors css,
      let* there := path_exists (child (child rdir "style") css) in
      if there then ret errors
      else let* _ := echo Stdout (PkgStyleMissing (txt css)) in ret (errors + 1))
      0 MUST_CSS in
  fold_cmd (λ errors name,
    let* html := read_text (join_path (child rdir "sections") (PPath false [name])) in
    let found := check_section e name html in
    let* _ := for_each (echo Stdout) found in
    ret (errors + length found)) errors sections.

Definition lint (e : env) (report_dir : text) : M unit :=
  let* errors := lint_count e report_dir in
  match errors with
  | O => echo Stdout PkgLintPassed
  | S _ =>
      let* _ := echo Stdout (PkgLintFailed errors) in
      raise (TyperExit 1)
  end.

End Pkg.

(** ** Notions used to state the properties *)

Module Spec.
Import Os Cmd.

(** The world after some more lines were printed. *)
Definition printed (w : world) (l : list (stream * message)) : world :=
  {| cwd := cwd w; files := files w; console := console w ++ l |}.




(** The text that [build] writes, from what it has read: the wrapper is
    assembled for a configuration whose sections are emptied, and the
    section texts are placed in it. *)
Definition built_html (cfg : Single.Config) (wrapper : text) (texts : list text) : text :=
  Single.place_sections
    (Single.assemble (Single.with_sections cfg []) wrapper)
    (Str.join [LF] texts).

(** The script that [inject_boot_config] puts before the end of the head
    when the sections of the configuration are empty. *)
Definition empty_sections_snapshot (cfg : Single.Config) : text :=
  [LF] ++ txt "<script>" ++ [LF] ++
  txt "window.__CONFIG__ = {" ++ [LF] ++
  txt "  title: " ++ Py.json_str (Single.title cfg) ++ txt "," ++ [LF] ++
  txt "  subtitle: " ++ Py.json_str (Single.subtitle cfg) ++ txt "," ++ [LF] ++
  txt "  prepared: " ++ Py.json_str (Single.prepared cfg) ++ txt "," ++ [LF] ++
  txt "  kicker: " ++ Py.json_str (Single.kicker cfg) ++ txt "," ++ [LF] ++
  txt "  sections: []" ++ [LF] ++
  txt "};" ++ [LF] ++
  txt "</script>" ++ [LF].

(** The tag before which [build] places the sections in [assembled]. *)
Definition anchor (assembled : text) : text :=
  if Str.contains Single.MARKER assembled then Single.MARKER else Single.BODY_END.

(** The directory of the configuration file. *)
Definition base_dir_of (w : world) (config : text) : path :=
  parent (resolve (cwd w) (parse_path config)).

(** Steps 1 to 3 of [build], as far as they read: the configuration with
    its sections (declared or discovered) and the text of the wrapper. *)
Definition prepare (e : Single.env) (config : text) : M (Single.Config * text) :=
  let* d := get_cwd in
  let base_dir := parent (resolve d (parse_path config)) in
  let* cfg := Single.load_config e (parse_path config) in
  let* cfg :=
    (if Single.sections_given cfg then ret cfg
     else let* found := Single.discover_sections (base_dir ++ [txt "sections"]) in
          ret (Single.with_sections cfg found)) in
  let* wrapper :=
    Single.read_text (join_path (pure base_dir) (parse_path (txt "report.html"))) in
  ret (cfg, wrapper).

(** The file that the loop of step 4 finds for section [s], if any: below
    the base directory, or else below the directory of the HTML output. *)
Definition section_file (f : fs) (d base_dir : path) (html_out s : text) : option path :=
  let p := resolve d (join_path (pure base_dir) (parse_path s)) in
  let alt := resolve d (join_path
               (pure (parent (resolve d (join_path (pure base_dir) (parse_path html_out)))))
               (parse_path s)) in
  if exists_ f p then Some p
  else if exists_ f alt then Some alt
  else None.

(** The warnings of step 4 for the sections [l]. *)
Definition missing_warnings (f : fs) (d base_dir : path) (html_out : text) (l : list text)
  : list (stream * message) :=
  omap (λ s, match section_file f d base_dir html_out s with
             | Some _ => None
             | None => Some (Stderr, SectionNotFound s)
             end) l.

(** The scaffold of [init], as paths below the target. *)
Definition scaffold_tree (report_html config_yaml : text) : fs :=
  [ ([txt "sections"], Dir);
    ([txt "style"], Dir);
    ([txt "images"], Dir);
    ([txt "diagrams"], Dir);
    ([txt "build"], Dir);
    ([txt "report.html"], File report_html);
    ([txt "config.yaml"], File config_yaml);
    ([txt "sections"; txt "01-introduction.html"],
     File (Single.sample_section "Introduction" "Project goals, scope and context."));
    ([txt "sections"; txt "02-methodology.html"],
     File (Single.sample_section "Methodology" "Approach, data and tools."));
    ([txt "sections"; txt "03-results.html"],
     File (Single.sample_section "Results" "Key findings and figures."));
    ([txt ".gitignore"], File Single.GITIGNORE) ].


(** How often [lint] recorded a missing h1 for the file [name]. *)
Definition missing_h1_count (name : text) (errors : list lint_error) : nat :=
  length (filter (λ x, x = MissingH1 name) errors).

(** The directory that [lint] and [build] look for sections in. *)
Definition sections_dir_of (w : world) (config : text) : path :=
  base_dir_of w config ++ [txt "sections"].

(** [x] is not after [y] in the order of [sorted(..., key=key)]: the key
    of [y] is not smaller than the key of [x]. *)
Definition not_after {A K} (lt : K → K → bool) (key : A → K) (x y : A) : Prop :=
  lt (key y) (key x) = false.




(** *** What a command leaves alone *)

(** A command that only reads and prints: whatever its outcome, the
    working directory and the file system are as before. *)
Definition read_only {A} (c : M A) : Prop := ∀ w, ∃ l, (c w).2 = printed w l.

(** A command that, run in the working directory [d] and whatever its
    outcome, stays in [d] and leaves every entry that was there and is not
    in [P] as it was. *)
Definition keeps_outside {A} (d : path) (P : path → Prop) (c : M A) : Prop :=
  ∀ w, cwd w = d →
       cwd (c w).2 = d ∧
       ∀ q n, ¬ P q → lookup (files w) q = Some n → lookup (files (c w).2) q = Some n.

(** *** Paths that can be written *)

(** A list of path components without [..]. *)
Definition clean (cs : list text) : Prop := Forall (λ c, c ≠ txt "..") cs.


(** *** Placeholder tokens *)

Definition LBRACKET : ascii := ascii_of_nat 91.
Definition RBRACKET : ascii := ascii_of_nat 93.

(** A key that holds no bracket. *)
Definition plain_key (k : text) : Prop := (LBRACKET ∉ k) ∧ (RBRACKET ∉ k).

(** A placeholder token: a key without brackets, in brackets. *)
Definition placeholder_token (t : text) : Prop := ∃ k, t = Pkg.token k ∧ plain_key k.

(** The scaffold of the package's [init], as paths below the target. *)
Definition pkg_scaffold_tree (config_yaml : text) : fs :=
  [ ([txt "sections"], Dir);
    ([txt "images"], Dir);
    ([txt "diagrams"], Dir);
    ([txt "style"], Dir);
    ([txt "sections"; txt "01-introduction.html"],
     File (txt "<section><h1>Introduction</h1><p>Start here.</p></section>"));
    ([txt "config.yaml"], File config_yaml) ].



(** The entries of [f] at or below [d], in the order of [f]. *)
Definition below (d : path) (f : fs) : fs := filter (λ e, under d e.1 = true) f.

End Spec.

(** ** Concrete reports, used to run the programs *)

Module Example.
Import Os Cmd.

Definition quoted (s : string) : text := [Single.DQ] ++ txt s ++ [Single.DQ].

Definition cfg0 : Single.Config :=
  {| Single.title := txt "Report"; Single.subtitle := txt "Sub";
     Single.prepared := txt "Me"; Single.kicker := txt "Note";
     Single.sections := Some [txt "sections/01-a.html"];
     Single.theme := None |}.

(** A wrapper with a head, an end marker and a body. *)
Definition wrapper0 : text :=
  txt "<html><head><title>[TITLE]</title></head><body><h1>[TITLE]</h1><section id=" ++
  quoted "end" ++ txt "></section></body></html>".

(** A wrapper with a body but no end marker. *)
Definition wrapper_body : text := txt "<html><body><h1>[TITLE]</h1></body></html>".

(** A wrapper with neither. *)
Definition wrapper_bare : text := txt "<html><p>x</p></html>".

(** A wrapper with neither, but with a placeholder. *)
Definition wrapper_title : text := txt "<h1>[TITLE]</h1>".

Definition cfg_body_title : Single.Config :=
  {| Single.title := txt "</body>"; Single.subtitle := []; Single.prepared := [];
     Single.kicker := []; Single.sections := None; Single.theme := None |}.



Definition links0 : text :=
  txt "<link href=" ++ quoted "style/general.css" ++ txt "><a href=" ++
  quoted "https://example.org" ++ txt ">".





(** *** A report directory for the single-file program *)

Definition HOME : path := [txt "home"; txt "u"].
Definition REPORT : path := HOME ++ [txt "report"].

Definition section_a : text := txt "<p>no heading here</p>".

Definition report_files (wrapper : text) : fs :=
  [ ([txt "home"], Dir);
    (HOME, Dir);
    (REPORT, Dir);
    (REPORT ++ [txt "config.yaml"], File (txt "title: Report"));
    (REPORT ++ [txt "report.html"], File wrapper);
    (REPORT ++ [txt "sections"], Dir);
    (REPORT ++ [txt "sections"; txt "01-a.html"], File section_a) ].

Definition report_world (wrapper : text) : world :=
  {| cwd := REPORT; files := report_files wrapper; console := [] |}.

(** The parsed configuration: one section that exists, one that does not. *)
Definition data0 : Single.yaml_data :=
  {| Single.y_title := Some (txt "Report"); Single.y_subtitle := None;
     Single.y_prepared := None; Single.y_kicker := None;
     Single.y_sections := Some [txt "sections/01-a.html"; txt "sections/missing.html"];
     Single.y_theme := None |}.

Definition loaded0 : Single.Config :=
  {| Single.title := txt "Report"; Single.subtitle := []; Single.prepared := [];
     Single.kicker := [];
     Single.sections := Some [txt "sections/01-a.html"; txt "sections/missing.html"];
     Single.theme := None |}.

(** PyYAML and BeautifulSoup are installed, Playwright and git are not;
    the HTML parser is given by its result on [section_a]. *)
Definition single_env : Single.env :=
  {| Single.yaml_available := true;
     Single.yaml_safe_load := λ _, inr data0;
     Single.playwright_available := false;
     Single.print_pdf := λ _ _, inl BrowserError;
     Single.bs4_available := true;
     Single.html_parser := λ _, [Element (txt "p") [Text (txt "no heading here")]];
     Single.git_installed := false;
     Single.git_inside_work_tree := λ _ _, false;
     Single.git_init := λ f _, f |}.

(** The same without BeautifulSoup. *)
Definition plain_env : Single.env :=
  {| Single.yaml_available := true;
     Single.yaml_safe_load := λ _, inr data0;
     Single.playwright_available := false;
     Single.print_pdf := λ _ _, inl BrowserError;
     Single.bs4_available := false;
     Single.html_parser := λ _, [];
     Single.git_installed := false;
     Single.git_inside_work_tree := λ _ _, false;
     Single.git_init := λ f _, f |}.

(** *** A report directory for the package *)

Definition pkg_files : fs :=
  [ ([txt "home"], Dir);
    (HOME, Dir);
    (REPORT, Dir);
    (REPORT ++ [txt "sections"], Dir);
    (REPORT ++ [txt "sections"; txt "01-a.html"], File section_a) ].

Definition pkg_world : world :=
  {| cwd := REPORT; files := pkg_files; console := [] |}.

(** No configuration file, no Playwright; the template stands for one
    that puts the sections one after the other, the parser is given by its
    result on [section_a]. *)
Definition pkg_env : Pkg.env :=
  {| Pkg.yaml_safe_load := λ _, inr Pkg.empty_config;
     Pkg.render_template := λ sections _ _ _, inr (concat sections);
     Pkg.playwright_available := false;
     Pkg.print_pdf := λ _ _, inl BrowserError;
     Pkg.lxml_parser := λ _,
       inr [Element (txt "html")
              [Element (txt "body")
                 [Element (txt "p") [Text (txt "no heading here")]]]];
     Pkg.which := λ _, None;
     Pkg.run_mmdc := λ f _ _, f;
     Pkg.run_plantuml := λ f _ _, f;
     Pkg.git_inside_work_tree := λ _ _, true;
     Pkg.git_init := λ f _, f |}.

(** *** A freshly made report, seen from inside *)

Definition scaffold_world : world :=
  {| cwd := REPORT;
     files := (REPORT, Dir) ::
              map (λ e : path * node, (REPORT ++ e.1, e.2)) (Spec.scaffold_tree [] []);
     console := [] |}.

(** A freshly made report of the package, seen from inside. *)
Definition pkg_scaffold_world : world :=
  {| cwd := REPORT;
     files := (REPORT, Dir) ::
              map (λ e : path * node, (REPORT ++ e.1, e.2)) (Spec.pkg_scaffold_tree []);
     console := [] |}.




End Example.
(** * Facts about the string primitives *)

Module StrFacts.
Import Str.

Lemma startswith_spec s p : startswith s p = true ↔ ∃ r, s = p ++ r.
Proof.
  revert s; induction p as [|a p IH]; intros s; simpl.
  - split; [intros _; by exists s | done].
  - destruct s as [|b s]; simpl.
    + split; [done | intros [r Hr]; discriminate].
    + rewrite andb_true_iff, Ascii.eqb_eq, IH. split.
      * intros [-> [r ->]]. eauto.
      * intros [r Hr]. injection Hr as -> ->. eauto.
Qed.

Lemma startswith_app p r : startswith (p ++ r) p = true.
Proof. apply startswith_spec; eauto. Qed.

Lemma startswith_nil_r s : startswith s [] = true.
Proof. by destruct s. Qed.

Lemma contains_spec old s : contains old s = true ↔ occurs old s.
Proof.
  unfold occurs. induction s as [|c s IH]; simpl.
  - rewrite orb_false_r, startswith_spec. split.
    + intros [r Hr]. exists [], r. done.
    + intros (pre & post & H). destruct pre; simpl in H; [eauto|done].
  - rewrite orb_true_iff, startswith_spec, IH. split.
    + intros [[r Hr] | (pre & post & ->)].
      * exists [], r. done.
      * exists (c :: pre), post. done.
    + intros (pre & post & H). destruct pre as [|d pre]; simpl in H.
      * left; eauto.
      * injection H as -> ->. right; eauto.
Qed.

Lemma contains_false old s : contains old s = false ↔ ¬ occurs old s.
Proof. rewrite <- contains_spec. by destruct (contains old s). Qed.

Lemma contains_nil_l s : contains [] s = true.
Proof. destruct s; simpl; by rewrite ?startswith_nil_r. Qed.

Lemma contains_cons_false old c s :
  contains old (c :: s) = false →
  startswith (c :: s) old = false ∧ contains old s = false.
Proof. simpl. by intros ?%orb_false_elim. Qed.

Lemma replace_from_absent old new s :
  contains old s = false → replace_from old new 0 s = s.
Proof.
  induction s as [|c s IH]; [done|].
  intros [H1 H2]%contains_cons_false.
  cbn [replace_from]. rewrite H1. f_equal. auto.
Qed.

(** Replacing a string that does not occur changes nothing. *)
Lemma replace_absent old new s : contains old s = false → replace old new s = s.
Proof.
  destruct old as [|a old].
  - by rewrite contains_nil_l.
  - apply replace_from_absent.
Qed.

Lemma replace_first_absent old new s :
  contains old s = false → replace_first old new s = s.
Proof.
  induction s as [|c s IH].
  - simpl. rewrite orb_false_r. by intros ->.
  - intros [H1 H2]%contains_cons_false.
    cbn [replace_first]. rewrite H1. f_equal. auto.
Qed.

Lemma replace_from_skip old new k s :
  replace_from old new k s = replace_from old new 0 (drop k s).
Proof.
  revert k; induction s as [|c s IH]; intros k.
  - by destruct k.
  - destruct k as [|k]; [done|]. simpl. apply IH.
Qed.

(** The usual reading of [replace]: at a match emit [new] and continue
    after the match, otherwise copy one character. *)
Lemma replace_from_match old new s :
  old ≠ [] → startswith s old = true →
  replace_from old new 0 s = new ++ replace_from old new 0 (drop (length old) s).
Proof.
  intros Hne Hs. destruct s as [|c s].
  - destruct old; [done|discriminate].
  - cbn [replace_from]. rewrite Hs, replace_from_skip.
    destruct old as [|a old]; [done|]. simpl. by rewrite Nat.sub_0_r.
Qed.

Lemma replace_from_nomatch old new c s :
  startswith (c :: s) old = false →
  replace_from old new 0 (c :: s) = c :: replace_from old new 0 s.
Proof. intros Hs. cbn [replace_from]. by rewrite Hs. Qed.

Lemma find_none old s : find old s = None ↔ contains old s = false.
Proof.
  induction s as [|c s IH]; simpl.
  - rewrite orb_false_r. by destruct (startswith [] old).
  - destruct (startswith (c :: s) old); simpl; [done|].
    rewrite <- IH. by destruct (find old s).
Qed.

Lemma find_some_contains old s i : find old s = Some i → contains old s = true.
Proof.
  intros H. destruct (contains old s) eqn:E; [done|].
  apply find_none in E. congruence.
Qed.

Lemma find_cons old c s i :
  find old (c :: s) = Some i →
  (startswith (c :: s) old = true ∧ i = 0) ∨
  (startswith (c :: s) old = false ∧ ∃ j, i = S j ∧ find old s = Some j).
Proof.
  simpl. destruct (startswith (c :: s) old).
  - intros [= <-]. by left.
  - destruct (find old s) as [j|]; simpl; [|done].
    intros [= <-]. right. eauto.
Qed.

Lemma startswith_drop s p :
  startswith s p = true → s = p ++ drop (length p) s.
Proof.
  intros [r ->]%startswith_spec. by rewrite drop_app_length.
Qed.

(** The index that [find] returns is an occurrence ... *)
Lemma find_some_drop old s i :
  find old s = Some i → drop i s = old ++ drop (i + length old) s.
Proof.
  revert i; induction s as [|c s IH]; intros i.
  - simpl. destruct (startswith [] old) eqn:E; [|done].
    intros [= <-]. by apply startswith_drop.
  - intros [[E ->] | [E (j & -> & Hj)]]%find_cons.
    + by apply startswith_drop.
    + simpl. by apply IH.
Qed.

(** ... and no occurrence starts before it. *)
Lemma find_some_first old s i j :
  find old s = Some i → j < i → startswith (drop j s) old = false.
Proof.
  revert i j; induction s as [|c s IH]; intros i j.
  - simpl. destruct (startswith [] old); [|done]. intros [= <-]. lia.
  - intros [[E ->] | [E (k & -> & Hk)]]%find_cons Hlt; [lia|].
    destruct j as [|j]; [done|]. simpl. apply (IH k); [done|lia].
Qed.

(** [replace(old, new, 1)] puts [new] in the place of the occurrence that
    [find] returns. *)
Lemma replace_first_find old new s i :
  find old s = Some i →
  replace_first old new s = take i s ++ new ++ drop (i + length old) s.
Proof.
  revert i; induction s as [|c s IH]; intros i.
  - simpl. destruct (startswith [] old); [|done]. by intros [= <-].
  - intros [[E ->] | [E (j & -> & Hj)]]%find_cons;
      cbn [replace_first]; rewrite E; [done|].
    simpl. f_equal. by apply IH.
Qed.

(** *** Replacement as rewriting of occurrences *)

Section rewrites.
Import Spec.
Context (R : text → text → Prop).




End rewrites.

End StrFacts.

(** * Facts about comparison and sorting *)

Module SortFacts.

Lemma nat_of_ascii_inj a b : nat_of_ascii a = nat_of_ascii b → a = b.
Proof.
  intros H. rewrite <- (ascii_nat_embedding a), <- (ascii_nat_embedding b).
  by rewrite H.
Qed.

Lemma text_lt_irrefl a : Py.text_lt a a = false.
Proof.
  induction a as [|x a IH]; [done|]. simpl.
  by rewrite Nat.ltb_irrefl, Ascii.eqb_refl, IH.
Qed.

Lemma text_lt_cons x a y b :
  Py.text_lt (x :: a) (y :: b) = true ↔
  nat_of_ascii x < nat_of_ascii y ∨ (x = y ∧ Py.text_lt a b = true).
Proof.
  simpl. rewrite orb_true_iff, andb_true_iff, Nat.ltb_lt, Ascii.eqb_eq. done.
Qed.

Lemma text_lt_trans a b c :
  Py.text_lt a b = true → Py.text_lt b c = true → Py.text_lt a c = true.
Proof.
  revert b c; induction a as [|x a IH]; intros [|y b] [|z c]; try done.
  rewrite !text_lt_cons.
  intros [H1 | [-> H1]] [H2 | [-> H2]]; [left; lia | by left | by left |].
  right. eauto.
Qed.

Lemma text_lt_total a b :
  Py.text_lt a b = false → Py.text_lt b a = false → a = b.
Proof.
  revert b; induction a as [|x a IH]; intros [|y b]; try done.
  intros H1 H2.
  destruct (lt_eq_lt_dec (nat_of_ascii x) (nat_of_ascii y)) as [[Hlt | Heq] | Hgt].
  - assert (Py.text_lt (x :: a) (y :: b) = true) by (apply text_lt_cons; by left).
    congruence.
  - apply nat_of_ascii_inj in Heq as ->. f_equal. apply IH.
    + destruct (Py.text_lt a b) eqn:E; [|done].
      assert (Py.text_lt (y :: a) (y :: b) = true) by (apply text_lt_cons; by right).
      congruence.
    + destruct (Py.text_lt b a) eqn:E; [|done].
      assert (Py.text_lt (y :: b) (y :: a) = true) by (apply text_lt_cons; by right).
      congruence.
  - assert (Py.text_lt (y :: b) (x :: a) = true) by (apply text_lt_cons; by left).
    congruence.
Qed.

Lemma pair_lt_spec a b :
  Py.pair_lt a b = true ↔
  (a.1 < b.1)%N ∨ (a.1 = b.1 ∧ Py.text_lt a.2 b.2 = true).
Proof.
  unfold Py.pair_lt.
  by rewrite orb_true_iff, andb_true_iff, N.ltb_lt, N.eqb_eq.
Qed.

Lemma pair_lt_irrefl a : Py.pair_lt a a = false.
Proof.
  unfold Py.pair_lt. by rewrite N.ltb_irrefl, N.eqb_refl, text_lt_irrefl.
Qed.

Lemma pair_lt_trans a b c :
  Py.pair_lt a b = true → Py.pair_lt b c = true → Py.pair_lt a c = true.
Proof.
  rewrite !pair_lt_spec.
  intros [H1 | [E1 H1]] [H2 | [E2 H2]]; [left; lia | left; lia | left; lia |].
  right. split; [congruence|]. eauto using text_lt_trans.
Qed.

Lemma pair_lt_total a b :
  Py.pair_lt a b = false → Py.pair_lt b a = false → a = b.
Proof.
  intros H1 H2. destruct a as [m s], b as [n t].
  destruct (N.lt_trichotomy m n) as [Hlt | [-> | Hgt]].
  - assert (Py.pair_lt (m, s) (n, t) = true) by (apply pair_lt_spec; by left).
    congruence.
  - f_equal. apply text_lt_total.
    + destruct (Py.text_lt s t) eqn:E; [|done].
      assert (Py.pair_lt (n, s) (n, t) = true) by (apply pair_lt_spec; by right).
      congruence.
    + destruct (Py.text_lt t s) eqn:E; [|done].
      assert (Py.pair_lt (n, t) (n, s) = true) by (apply pair_lt_spec; by right).
      congruence.
  - assert (Py.pair_lt (n, t) (m, s) = true) by (apply pair_lt_spec; by left).
    congruence.
Qed.

(** [sorted] for a comparison that is a strict total order on the keys. *)
Section sorted.
Context {A K : Type} (lt : K → K → bool) (key : A → K).
Hypothesis lt_irrefl : ∀ a, lt a a = false.
Hypothesis lt_trans : ∀ a b c, lt a b = true → lt b c = true → lt a c = true.
Hypothesis lt_total : ∀ a b, lt a b = false → lt b a = false → a = b.

Local Abbreviation le := (Spec.not_after lt key).

Lemma lt_le x y : lt (key x) (key y) = true → le x y.
Proof.
    intros H. unfold Spec.not_after. destruct (lt (key y) (key x)) eqn:E; [|done].
    pose proof (lt_trans _ _ _ H E) as Hc. by rewrite lt_irrefl in Hc.
Qed.

Lemma le_trans x y z : le x y → le y z → le x z.
Proof.
    unfold Spec.not_after. intros Hxy Hyz.
    destruct (lt (key z) (key x)) eqn:E; [|done].
    destruct (lt (key x) (key y)) eqn:Exy.
    - by rewrite (lt_trans _ _ _ E Exy) in Hyz.
    - by rewrite <- (lt_total _ _ Exy Hxy), E in Hyz.
Qed.

Lemma insert_sorted_perm x l : Py.insert_sorted lt key x l ≡ₚ x :: l.
Proof.
    induction l as [|y l IH]; simpl; [done|].
    destruct (lt (key y) (key x)); [|done].
    by rewrite IH, Permutation_swap.
Qed.

  (** The result holds the same elements ... *)
Lemma sorted_perm l : Py.sorted lt key l ≡ₚ l.
Proof.
    induction l as [|x l IH]; simpl; [done|].
    by rewrite insert_sorted_perm, IH.
Qed.

Lemma insert_sorted_sorted x l :
    StronglySorted le l → StronglySorted le (Py.insert_sorted lt key x l).
Proof.
    induction 1 as [|y l Hl IH Hy]; simpl.
    - by repeat constructor.
    - destruct (lt (key y) (key x)) eqn:E.
      + constructor; [done|].
        rewrite insert_sorted_perm. constructor; [by apply lt_le | done].
      + constructor; [by constructor|].
        constructor; [done|].
        eapply Forall_impl; [done|]. intros z Hz. by eapply le_trans.
Qed.

  (** ... in ascending order of their keys ... *)
Lemma sorted_sorted l : StronglySorted le (Py.sorted lt key l).
Proof.
    induction l as [|x l IH]; simpl; [constructor|].
    by apply insert_sorted_sorted.
Qed.


Lemma key_inj_NoDup l x y :
    NoDup (key <$> l) → x ∈ l → y ∈ l → key x = key y → x = y.
Proof.
    induction l as [|z l IH]; [by intros _ ?%elem_of_nil|].
    rewrite fmap_cons, NoDup_cons.
    intros [Hz Hl] [->|Hx]%elem_of_cons [->|Hy]%elem_of_cons Hk; [done| | |eauto].
    - destruct Hz. rewrite Hk. by apply list_elem_of_fmap_2.
    - destruct Hz. rewrite <- Hk. by apply list_elem_of_fmap_2.
Qed.

  (** When no two elements share a key, the result does not depend on the
      order in which they came. *)
Lemma sorted_unique l1 l2 :
    l1 ≡ₚ l2 → NoDup (key <$> l1) → Py.sorted lt key l1 = Py.sorted lt key l2.
Proof.
    intros Hp Hnd.
    apply (StronglySorted_unique_strong le); [|apply sorted_sorted..|].
    - intros x y Hx Hy Hxy Hyx.
      rewrite sorted_perm in Hx. rewrite sorted_perm, <- Hp in Hy.
      apply (key_inj_NoDup l1); [done..|]. by apply lt_total.
    - by rewrite !sorted_perm.
Qed.
End sorted.

End SortFacts.

(** * Facts about commands and the file system *)

Module CmdFacts.
Import Os Cmd Spec.

(** One step of a command run: case analysis on the innermost result. *)
Ltac step :=
  match goal with
  | |- context [match ?c with pair _ _ => _ end] =>
      lazymatch c with
      | context [match _ with pair _ _ => _ end] => fail
      | _ => destruct c as [[?|?] ?] eqn:?; simpl
      end
  end.

Lemma printed_nil w : printed w [] = w.
Proof. destruct w. unfold printed. simpl. by rewrite app_nil_r. Qed.

Lemma printed_app w a b : printed (printed w a) b = printed w (a ++ b).
Proof. unfold printed. simpl. by rewrite app_assoc. Qed.

Lemma bind_ok {A B} (c : M A) (k : A → M B) w a w1 :
  c w = (Ok a, w1) → bind c k w = k a w1.
Proof. unfold bind. by intros ->. Qed.

Lemma bind_ok_inv {A B} (c : M A) (k : A → M B) w b w2 :
  bind c k w = (Ok b, w2) → ∃ a w1, c w = (Ok a, w1) ∧ k a w1 = (Ok b, w2).
Proof. unfold bind. destruct (c w) as [[a|e] w1]; [eauto|done]. Qed.

Lemma query_run {A} (op : fs → exn + A) w :
  query op w = match op (files w) with
               | inl e => (Raise e, w)
               | inr a => (Ok a, w)
               end.
Proof. unfold query, bind, get_files, of_sum. simpl. by destruct (op (files w)). Qed.

Lemma update_run (op : fs → exn + fs) w :
  update op w = match op (files w) with
                | inl e => (Raise e, w)
                | inr f => (Ok tt, {| cwd := cwd w; files := f; console := console w |})
                end.
Proof. unfold update, bind, get_files, of_sum. simpl. by destruct (op (files w)). Qed.

(** *** Patterns *)

Lemma glob_match_lits suf s : glob_match (map Lit suf) s = true ↔ s = suf.
Proof.
  revert s; induction suf as [|c suf IH]; intros [|d s]; simpl; try done.
  rewrite andb_true_iff, Ascii.eqb_eq, IH.
  split; [by intros [-> ->] | by intros [= -> ->]].
Qed.

Lemma glob_star_nil p : glob_match (Star :: p) [] = glob_match p [].
Proof. simpl. by rewrite orb_false_r. Qed.

Lemma glob_star_cons p c s :
  glob_match (Star :: p) (c :: s) = glob_match p (c :: s) || glob_match (Star :: p) s.
Proof. done. Qed.

(** A star followed by literal characters matches the names that end in
    these characters. *)
Lemma glob_match_star_lits suf s :
  glob_match (Star :: map Lit suf) s = true ↔ ∃ stem, s = stem ++ suf.
Proof.
  induction s as [|c s IH].
  - rewrite glob_star_nil, glob_match_lits. split.
    + intros <-. by exists [].
    + intros [stem H]. symmetry in H. by apply app_eq_nil in H as [_ ->].
  - rewrite glob_star_cons, orb_true_iff, glob_match_lits, IH. split.
    + intros [<- | [stem ->]]; [by exists [] | by exists (c :: stem)].
    + intros [[|d stem] H]; [by left|].
      injection H as -> ->. right. eauto.
Qed.

Lemma lookup_store_eq p n f : lookup (store p n f) p = Some n.
Proof.
  induction f as [|[q m] f IH]; simpl.
  - by rewrite decide_True.
  - destruct (decide (q = p)) as [->|Hne]; simpl.
    + by rewrite decide_True.
    + by rewrite decide_False.
Qed.

Lemma lookup_store_ne p q n f : p ≠ q → lookup (store p n f) q = lookup f q.
Proof.
  intros Hne. induction f as [|[r m] f IH]; simpl.
  - by rewrite decide_False.
  - destruct (decide (r = p)) as [->|Hrp]; simpl.
    + by rewrite !decide_False.
    + destruct (decide (r = q)); [done|]. apply IH.
Qed.

Lemma write_file_ok q s f f' :
  write_file q s f = inr f' → node_at f' q = Some (File s).
Proof.
  unfold write_file. destruct q as [|c q]; [done|].
  assert (node_at (store (c :: q) (File s) f) (c :: q) = Some (File s))
    by apply lookup_store_eq.
  repeat case_match; naive_solver.
Qed.

(** A successful [write_text] leaves the file with the text written. *)
Lemma write_text_ok p s w w' :
  Single.write_text p s w = (Ok tt, w') →
  cwd w' = cwd w ∧ console w' = console w ∧
  node_at (files w') (resolve (cwd w) p) = Some (File s).
Proof.
  unfold Single.write_text, locate, bind, get_cwd, ret. simpl.
  rewrite update_run.
  destruct (mkdir_parents _ _) as [?|f1]; [done|]. simpl.
  rewrite update_run. simpl.
  destruct (write_file _ _ _) as [?|f2] eqn:E; [done|].
  intros [= <-]. simpl. eauto using write_file_ok.
Qed.

Lemma read_text_run p w :
  Single.read_text p w = match read_file (resolve (cwd w) p) (files w) with
                         | inl e => (Raise e, w)
                         | inr s => (Ok s, w)
                         end.
Proof.
  unfold Single.read_text, locate, bind, get_cwd, ret. simpl. apply query_run.
Qed.

Lemma map_cmd_read ps ts w :
  Forall2 (λ p t, read_file p (files w) = inr t) ps ts →
  map_cmd (λ p, query (read_file p)) ps w = (Ok ts, w).
Proof.
  induction 1 as [|p t ps ts Hp _ IH]; [done|].
  simpl. unfold bind. by rewrite query_run, Hp, IH.
Qed.

Lemma map_cmd_read_world ps ts w w' :
  map_cmd (λ p, query (read_file p)) ps w = (Ok ts, w') → w' = w.
Proof.
  revert ts w'; induction ps as [|p ps IH]; intros ts w'.
  - by intros [= _ <-].
  - simpl. unfold bind at 1. rewrite query_run.
    destruct (read_file p (files w)); [done|].
    unfold bind at 1. destruct (map_cmd _ ps w) as [[ts'|?] v] eqn:E; [|done].
    rewrite (IH ts' v eq_refl). by intros [= _ <-].
Qed.

End CmdFacts.

(** * Facts about the single-file program *)

Module SingleFacts.
Import Os Cmd Spec StrFacts CmdFacts.

(** Replacing tokens that do not occur, one after the other, changes
    nothing. *)
Lemma foldl_replace_absent {T} (tok val : T → text) (l : list T) (s : text) :
  Forall (λ x, Str.contains (tok x) s = false) l →
  foldl (λ s x, Str.replace (tok x) (val x) s) s l = s.
Proof.
  induction 1 as [|x l Hx _ IH]; simpl; [done|].
  by rewrite replace_absent.
Qed.

(** [build] is: read, place the sections, write, report. *)
Lemma build_html_phases e config out html_out w :
  Single.build_html e config out html_out w =
  (let base := base_dir_of w config in
   let out_html := join_path (pure base) (parse_path html_out) in
   let* cw := prepare e config in
   let* paths := Single.resolve_sections base html_out
                   (default [] (Single.sections cw.1)) in
   let* texts := map_cmd (λ p, query (read_file p)) paths in
   let* _ := Single.write_text out_html (built_html cw.1 cw.2 texts) in
   Single.echo_relative AssembledHtml out_html (pure base)) w.
Proof.
  unfold Single.build_html, prepare, Single.assemble_html, built_html, base_dir_of.
  unfold bind, get_cwd, ret. simpl.
  destruct (Single.load_config _ _ _) as [[cfg|?] w1]; [|done].
  destruct (Single.sections_given cfg); simpl; repeat step; done.
Qed.

(** Reading the configuration and the wrapper changes nothing. *)
Lemma prepare_ok e config w cw w1 :
  prepare e config w = (Ok cw, w1) → w1 = w.
Proof.
  unfold prepare, Single.load_config, Single.discover_sections.
  unfold bind, get_cwd, get_files, ret, of_sum. simpl.
  destruct (Single.yaml_available e); simpl; [|done].
  rewrite read_text_run.
  destruct (read_file _ _) as [?|s]; [done|].
  destruct (Single.yaml_safe_load e s) as [?|data]; [done|]. simpl.
  destruct (Single.sections_given _); simpl; rewrite read_text_run;
    destruct (read_file _ _); [done| |done|]; by intros [= _ <-].
Qed.

Lemma resolve_section_run base html_out s w :
  Single.resolve_section base html_out s w =
  match section_file (files w) (cwd w) base html_out s with
  | Some p => (Ok (Some p), w)
  | None => (Ok None, printed w [(Stderr, SectionNotFound s)])
  end.
Proof.
  unfold Single.resolve_section, section_file.
  unfold bind, get_cwd, get_files, ret, echo, printed. simpl.
  repeat (case_match; simpl; try done); congruence.
Qed.

Lemma resolve_sections_from base html_out l acc w :
  fold_cmd (λ acc s,
              let* r := Single.resolve_section base html_out s in
              ret (match r with Some p => acc ++ [p] | None => acc end)) acc l w =
  (Ok (acc ++ omap (section_file (files w) (cwd w) base html_out) l),
   printed w (missing_warnings (files w) (cwd w) base html_out l)).
Proof.
  revert acc w; induction l as [|s l IH]; intros acc w.
  - simpl. by rewrite app_nil_r, printed_nil.
  - cbn [fold_cmd]. unfold bind at 1 2. rewrite resolve_section_run.
    unfold missing_warnings. cbn [omap list_omap].
    destruct (section_file _ _ _ _ s) as [p|]; simpl; rewrite IH; simpl.
    + by rewrite <- app_assoc.
    + by rewrite printed_app.
Qed.

(** The loop of step 4 never raises: it returns the files that exist, in
    the order of the sections, and warns once for each section without a
    file. *)
Lemma resolve_sections_run base html_out l w :
  Single.resolve_sections base html_out l w =
  (Ok (omap (section_file (files w) (cwd w) base html_out) l),
   printed w (missing_warnings (files w) (cwd w) base html_out l)).
Proof. apply (resolve_sections_from base html_out l []). Qed.

Lemma echo_relative_run mk p base w :
  Single.echo_relative mk p base w =
  match relative_to p base with
  | Some rel => (Ok tt, printed w [(Stdout, mk rel)])
  | None => (Raise ValueError, w)
  end.
Proof. unfold Single.echo_relative. by destruct (relative_to p base). Qed.

(** What a successful run of the HTML part of [build] has done. *)
Lemma build_html_ok e config out html_out w w1 :
  Single.build_html e config out html_out w = (Ok tt, w1) →
  cwd w1 = cwd w ∧
  ∃ cfg wrapper texts,
    node_at (files w1)
      (resolve (cwd w) (join_path (pure (base_dir_of w config)) (parse_path html_out)))
    = Some (File (built_html cfg wrapper texts)).
Proof.
  rewrite build_html_phases. cbv zeta.
  intros ([cfg wrapper] & w2 & Hprep & H)%bind_ok_inv.
  apply prepare_ok in Hprep as ->.
  apply bind_ok_inv in H as (paths & w3 & Hres & H).
  rewrite resolve_sections_run in Hres. injection Hres as <- <-.
  apply bind_ok_inv in H as (texts & w4 & Hread & H).
  apply map_cmd_read_world in Hread as ->.
  apply bind_ok_inv in H as ([] & w5 & Hwrite & H).
  rewrite echo_relative_run in H.
  destruct (relative_to _ _); [|done]. injection H as <-.
  apply write_text_ok in Hwrite as (Hcwd & _ & Hfile). simpl in *.
  split; [done|]. eauto.
Qed.

(** A run of the HTML part of [build] in which every step succeeds. *)
Lemma build_html_run e config out html_out w cfg wrapper w1 texts w2 rel :
  let base := base_dir_of w config in
  let out_html := join_path (pure base) (parse_path html_out) in
  let listed := default [] (Single.sections cfg) in
  let warnings := missing_warnings (files w) (cwd w) base html_out listed in
  prepare e config w = (Ok (cfg, wrapper), w1) →
  Forall2 (λ p t, read_file p (files w) = inr t)
          (omap (section_file (files w) (cwd w) base html_out) listed) texts →
  Single.write_text out_html (built_html cfg wrapper texts) (printed w warnings)
  = (Ok tt, w2) →
  relative_to out_html (pure base) = Some rel →
  Single.build_html e config out html_out w
  = (Ok tt, printed w2 [(Stdout, AssembledHtml rel)]) ∧
  node_at (files w2) (resolve (cwd w) out_html)
  = Some (File (built_html cfg wrapper texts)) ∧
  console w2 = console w ++ warnings.
Proof.
  intros base out_html listed warnings Hprep Hread Hwrite Hrel.
  pose proof (prepare_ok _ _ _ _ _ Hprep) as ->.
  rewrite build_html_phases. cbv zeta. fold base out_html.
  rewrite (bind_ok _ _ _ _ _ Hprep). simpl. fold listed.
  rewrite (bind_ok _ _ _ _ _ (resolve_sections_run base html_out listed w)).
  fold warnings.
  rewrite (bind_ok _ _ _ _ _ (map_cmd_read _ texts (printed w warnings) Hread)).
  rewrite (bind_ok _ _ _ _ _ Hwrite).
  rewrite echo_relative_run, Hrel.
  apply write_text_ok in Hwrite as (_ & Hcon & Hfile). done.
Qed.

End SingleFacts.

(** * Facts about the package *)

Module PkgFacts.
Import Os Cmd Spec CmdFacts.

Lemma pkg_write_text_ok p s w w' :
  Pkg.write_text p s w = (Ok tt, w') →
  cwd w' = cwd w ∧ node_at (files w') (resolve (cwd w) p) = Some (File s).
Proof.
  unfold Pkg.write_text, locate, bind, get_cwd, ret. simpl.
  rewrite update_run.
  destruct (write_file _ _ _) as [?|f2] eqn:E; [done|].
  intros [= <-]. simpl. eauto using write_file_ok.
Qed.

Lemma render_report_ok e sections_html m url base p w w' :
  Pkg.render_report e sections_html m url base p w = (Ok tt, w') →
  cwd w' = cwd w ∧ ∃ html, node_at (files w') (resolve (cwd w) p) = Some (File html).
Proof.
  unfold Pkg.render_report.
  intros (html & w1 & H1 & H)%bind_ok_inv.
  assert (w1 = w) as ->.
  { unfold of_sum in H1. destruct (Pkg.render_template _ _ _ _ _); by inversion H1. }
  apply bind_ok_inv in H as (d & w2 & H2 & H).
  unfold locate, bind, get_cwd, ret in H2. simpl in H2. injection H2 as <- <-.
  apply bind_ok_inv in H as ([] & w3 & H3 & H).
  rewrite update_run in H3. destruct (mkdir_parents _ _); [done|].
  injection H3 as <-.
  apply pkg_write_text_ok in H as [Hcwd Hfile]. simpl in *. eauto.
Qed.

(** A successful HTML part of [build] has written the HTML file. *)
Lemma pkg_build_html_ok e report_dir out_dir gen w p w1 :
  Pkg.build_html e report_dir out_dir gen w = (Ok p, w1) →
  p = Pkg.child (parse_path out_dir) "report.html" ∧
  ∃ html, node_at (files w1) (resolve (cwd w1) p) = Some (File html).
Proof.
  unfold Pkg.build_html. intros H.
  repeat (apply bind_ok_inv in H as (? & ? & ? & H)).
  injection H as <- <-.
  split; [done|].
  repeat match goal with x : () |- _ => destruct x end.
  match goal with
  | Hr : Pkg.render_report _ _ _ _ _ _ _ = _ |- _ =>
      apply render_report_ok in Hr as (Hcwd & html & Hfile)
  end.
  match goal with
  | He : echo _ _ _ = _ |- _ => unfold echo in He; injection He as <-
  end.
  simpl. rewrite Hcwd. eauto.
Qed.

End PkgFacts.

(** * Facts about lint *)

Module LintFacts.
Import Os Cmd Spec CmdFacts.

Lemma missing_h1_count_app name a b :
  missing_h1_count name (a ++ b) = missing_h1_count name a + missing_h1_count name b.
Proof. unfold missing_h1_count. by rewrite filter_app, length_app. Qed.

(** The errors of one file name that file only. *)
Lemma file_errors_other e n name content :
  n ≠ name → missing_h1_count name (Single.file_errors e n content) = 0.
Proof.
  intros Hne. unfold Single.file_errors, missing_h1_count.
  assert (MissingH1 n ≠ MissingH1 name) by congruence.
  repeat case_match; simpl;
    repeat (rewrite filter_cons; rewrite decide_False by congruence); done.
Qed.

(** How often one file gets a missing h1: never when BeautifulSoup finds
    no section in it. *)
Lemma file_errors_h1 e name content :
  missing_h1_count name (Single.file_errors e name content) =
  if Single.bs4_available e then
    match soup_find (txt "section") (Single.html_parser e content) with
    | None => 0
    | Some sect => match tag_find (txt "h1") sect with None => 1 | Some _ => 0 end
    end
  else if Str.contains (txt "<h1") content then 0 else 1.
Proof.
  unfold Single.file_errors, missing_h1_count.
  repeat case_match; simpl;
    repeat (rewrite filter_cons;
            first [rewrite decide_True by done | rewrite decide_False by done]);
    done.
Qed.

(** The loop of [lint] over the section files. *)
Lemma lint_loop_inv e sec_dir names acc w errors w' :
  fold_cmd (λ errors name,
              let* content := query (read_file (sec_dir ++ [name])) in
              ret (errors ++ Single.file_errors e name content)) acc names w
  = (Ok errors, w') →
  w' = w ∧
  ∃ contents,
    Forall2 (λ n c, read_file (sec_dir ++ [n]) (files w) = inr c) names contents ∧
    errors = acc ++ concat (zip_with (Single.file_errors e) names contents).
Proof.
  revert acc; induction names as [|n names IH]; intros acc.
  - intros [= <- <-]. split; [done|]. exists []. by rewrite app_nil_r.
  - cbn [fold_cmd]. unfold bind at 1 2. rewrite query_run.
    destruct (read_file _ _) as [?|c] eqn:E; [done|]. simpl.
    intros (-> & contents & Hall & ->)%IH. split; [done|].
    exists (c :: contents). split; [by constructor|].
    simpl. by rewrite <- !app_assoc.
Qed.

Lemma lint_loop_count e sec_dir names contents f name content :
  NoDup names →
  Forall2 (λ n c, read_file (sec_dir ++ [n]) f = inr c) names contents →
  name ∈ names →
  read_file (sec_dir ++ [name]) f = inr content →
  missing_h1_count name (concat (zip_with (Single.file_errors e) names contents))
  = missing_h1_count name (Single.file_errors e name content).
Proof.
  intros Hnd Hall. revert Hnd.
  induction Hall as [|n c names contents Hn Hall IH]; [by intros _ ?%elem_of_nil|].
  intros [Hnotin Hnd]%NoDup_cons Hin Hread. simpl.
  rewrite missing_h1_count_app.
  destruct (decide (n = name)) as [->|Hne].
  - assert (c = content) as -> by congruence.
    assert (missing_h1_count name
              (concat (zip_with (Single.file_errors e) names contents)) = 0) as ->; [|lia].
    clear IH Hnd Hin. induction Hall as [|m d ms ds _ _ IH]; [done|].
    simpl. rewrite missing_h1_count_app, file_errors_other.
    + apply IH. set_solver.
    + set_solver.
  - rewrite file_errors_other by done. apply IH; [done| |done].
    apply elem_of_cons in Hin as [?|?]; [congruence|done].
Qed.

Lemma glob_NoDup f d pat : NoDup (glob f d pat).
Proof. unfold glob, listdir. apply NoDup_filter, NoDup_remove_dups. Qed.

(** What a completed run of the checks has found. *)
Lemma lint_errors_inv e config w errors w' :
  Single.lint_errors e config w = (Ok errors, w') →
  files w' = files w ∧
  (exists_ (files w) (sections_dir_of w config) = false ∧ errors = [NoSectionsDir] ∨
   exists_ (files w) (sections_dir_of w config) = true ∧
   ∃ contents,
     let names := glob (files w) (sections_dir_of w config) STAR_HTML in
     Forall2 (λ n c, read_file (sections_dir_of w config ++ [n]) (files w) = inr c)
             names contents ∧
     errors = match names with [] => [SectionsEmpty] | _ => [] end ++
              concat (zip_with (Single.file_errors e) names contents)).
Proof.
  unfold Single.lint_errors, sections_dir_of, base_dir_of.
  unfold bind at 1 2. unfold get_cwd, get_files at 1. cbv beta iota.
  destruct (exists_ _ _) eqn:Hex; simpl.
  - unfold bind at 1. unfold Single.discover_sections at 1.
    unfold bind at 1. unfold get_files at 1, ret at 1. cbv beta iota.
    unfold bind at 1.
    match goal with
    | |- context [if ?b then ret tt else echo Stdout OrderWarning] => destruct b
    end; simpl.
    + intros (-> & contents & Hall & ->)%lint_loop_inv. split; [done|].
      right. split; [done|]. exists contents. done.
    + intros (-> & contents & Hall & ->)%lint_loop_inv. split; [done|].
      right. split; [done|]. exists contents. done.
  - intros [= <- <-]. split; [done|]. by left.
Qed.

Lemma echo_run s m w : echo s m w = (Ok tt, printed w [(s, m)]).
Proof. done. Qed.

Lemma for_each_echo {A} (f : A → message) s l w :
  for_each (λ x, echo s (f x)) l w = (Ok tt, printed w (map (λ x, (s, f x)) l)).
Proof.
  unfold for_each. revert w; induction l as [|x l IH]; intros w.
  - simpl. by rewrite printed_nil.
  - cbn [fold_cmd map]. rewrite (bind_ok _ _ _ _ _ (echo_run s (f x) w)).
    by rewrite IH, printed_app.
Qed.

(** The verdict of [lint] after the checks. *)
Lemma lint_verdict e config w errors w' :
  Single.lint_errors e config w = (Ok errors, w') →
  Single.lint e config w =
  match errors with
  | [] => (Ok tt, printed w' [(Stdout, LintPassed)])
  | _ :: _ => (Raise (SystemExit 1),
               printed w' (map (λ x, (Stdout, LintError x)) errors))
  end.
Proof.
  intros H. unfold Single.lint. rewrite (bind_ok _ _ _ _ _ H).
  destruct errors as [|x l]; [done|].
  unfold bind. by rewrite for_each_echo.
Qed.

Lemma pkg_lint_verdict e report_dir w n w' :
  Pkg.lint_count e report_dir w = (Ok n, w') →
  Pkg.lint e report_dir w =
  match n with
  | O => (Ok tt, printed w' [(Stdout, PkgLintPassed)])
  | S _ => (Raise (TyperExit 1), printed w' [(Stdout, PkgLintFailed n)])
  end.
Proof.
  intros H. unfold Pkg.lint. rewrite (bind_ok _ _ _ _ _ H). by destruct n.
Qed.

End LintFacts.

(** * Facts about init *)

Module InitFacts.
Import Os Cmd Spec CmdFacts.

Lemma path_exists_run p w :
  path_exists p w = (Ok (exists_ (files w) (resolve (cwd w) p)), w).
Proof. done. Qed.


Lemma under_app t q : under t (t ++ q) = true.
Proof. unfold under. by rewrite take_app_length, bool_decide_eq_true. Qed.


Lemma node_at_lookup f p : p ≠ [] → node_at f p = lookup f p.
Proof. by destruct p. Qed.

Lemma parent_app t q : q ≠ [] → parent (t ++ q) = t ++ parent q.
Proof.
  intros Hq. unfold parent. rewrite length_app.
  destruct q as [|c q]; [done|]. simpl.
  rewrite take_app_ge by lia. f_equal. f_equal. lia.
Qed.

(** *** Paths below a target *)

Lemma foldl_collapse_clean acc ys :
  Forall (λ c, c ≠ txt "..") ys →
  foldl (λ acc c, if decide (c = txt "..") then tail acc else c :: acc) acc ys
  = reverse ys ++ acc.
Proof.
  intros H. revert acc. induction H as [|y ys Hy _ IH]; intros acc; [done|].
  simpl. rewrite decide_False by done. rewrite IH, reverse_cons.
  by rewrite <- app_assoc.
Qed.

Lemma collapse_app_clean xs ys :
  Forall (λ c, c ≠ txt "..") ys → collapse (xs ++ ys) = collapse xs ++ ys.
Proof.
  intros H. unfold collapse. rewrite foldl_app, foldl_collapse_clean by done.
  by rewrite reverse_app, reverse_involutive.
Qed.



(** *** Operations below a target act on the mirrored tree *)

Section mirror.
Context (t : path) (f : fs).
Hypothesis t_not_root : t ≠ [].






(** The directories above the target exist, in [f] and so in [g]. *)
Hypothesis above : ∀ k, 0 < k < length t → lookup f (take k t) = Some Dir.




(** *** The scaffold, step by step *)

Context (d : path) (c : list (stream * message)) (target : ppath).
Hypothesis target_absolute : absolute target = true.
Hypothesis target_resolved : resolve d target = t.




End mirror.

Lemma bind_bind {A B C} (c : M A) (k : A → M B) (h : B → M C) w :
  bind (bind c k) h w = bind c (λ a, bind (k a) h) w.
Proof. unfold bind. by destruct (c w) as [[?|?] ?]. Qed.

Lemma bind_ret {A B} (a : A) (k : A → M B) w : bind (ret a) k w = k a w.
Proof. done. Qed.




End InitFacts.

(** * What the commands leave alone *)

Module FrameFacts.
Import Os Cmd Spec CmdFacts SingleFacts.

Create HintDb read_only discriminated.

Lemma read_only_ret {A} (a : A) : read_only (ret a).
Proof. intros w. exists []. by rewrite printed_nil. Qed.

Lemma read_only_raise {A} e : read_only (@raise A e).
Proof. intros w. exists []. by rewrite printed_nil. Qed.

Lemma read_only_echo s m : read_only (echo s m).
Proof. intros w. by exists [(s, m)]. Qed.

Lemma read_only_get_cwd : read_only get_cwd.
Proof. intros w. exists []. by rewrite printed_nil. Qed.

Lemma read_only_get_files : read_only get_files.
Proof. intros w. exists []. by rewrite printed_nil. Qed.

Lemma read_only_bind {A B} (c : M A) (k : A → M B) :
  read_only c → (∀ a, read_only (k a)) → read_only (bind c k).
Proof.
  intros Hc Hk w. unfold bind. destruct (Hc w) as [l Hl].
  destruct (c w) as [[a|e] w1]; simpl in Hl; subst w1.
  - destruct (Hk a (printed w l)) as [l' Hl']. exists (l ++ l').
    by rewrite Hl', printed_app.
  - by exists l.
Qed.

Lemma read_only_of_sum {A} (r : exn + A) : read_only (of_sum r).
Proof. destruct r; [apply read_only_raise | apply read_only_ret]. Qed.

#[global] Hint Resolve read_only_ret read_only_raise read_only_echo read_only_get_cwd
  read_only_get_files read_only_of_sum : read_only.

Lemma read_only_query {A} (op : fs → exn + A) : read_only (query op).
Proof. apply read_only_bind; auto with read_only. Qed.

Lemma read_only_locate p : read_only (locate p).
Proof. apply read_only_bind; auto with read_only. Qed.

#[global] Hint Resolve read_only_query read_only_locate : read_only.

Lemma read_only_path_exists p : read_only (path_exists p).
Proof. repeat (apply read_only_bind; [|intros ?]); auto with read_only. Qed.

Lemma read_only_fold_cmd {A S} (body : S → A → M S) l :
  (∀ acc x, read_only (body acc x)) → ∀ acc, read_only (fold_cmd body acc l).
Proof.
  intros Hbody. induction l as [|x l IH]; intros acc; simpl.
  - apply read_only_ret.
  - apply read_only_bind; auto.
Qed.

Lemma read_only_for_each {A} (body : A → M unit) l :
  (∀ x, read_only (body x)) → read_only (for_each body l).
Proof. intros H. unfold for_each. apply read_only_fold_cmd. auto. Qed.

Lemma read_only_map_cmd {A B} (body : A → M B) l :
  (∀ x, read_only (body x)) → read_only (map_cmd body l).
Proof.
  intros Hbody. induction l as [|x l IH]; simpl.
  - apply read_only_ret.
  - repeat (apply read_only_bind; [|intros ?]); auto with read_only.
Qed.

#[global] Hint Resolve read_only_path_exists : read_only.

(** A command is read-only when its parts are. *)
Ltac read_only_step :=
  lazymatch goal with
  | |- read_only (bind _ _) => apply read_only_bind; [|intros ?]
  | |- read_only (fold_cmd _ _ _) => apply read_only_fold_cmd; intros ? ?
  | |- read_only (for_each _ _) => apply read_only_for_each; intros ?
  | |- read_only (map_cmd _ _) => apply read_only_map_cmd; intros ?
  | |- read_only (if ?b then _ else _) => destruct b
  | |- read_only (match ?x with _ => _ end) => destruct x
  | |- _ => solve [auto with read_only]
  end.

Lemma read_only_read_text p : read_only (Single.read_text p).
Proof. unfold Single.read_text. repeat read_only_step. Qed.

Lemma read_only_pkg_read_text p : read_only (Pkg.read_text p).
Proof. unfold Pkg.read_text. repeat read_only_step. Qed.

Lemma read_only_discover_sections d : read_only (Single.discover_sections d).
Proof. unfold Single.discover_sections. repeat read_only_step. Qed.

Lemma read_only_load_config e p : read_only (Single.load_config e p).
Proof.
  unfold Single.load_config.
  repeat first [apply read_only_read_text | read_only_step].
Qed.

Lemma read_only_find_sections d pat : read_only (Pkg.find_sections d pat).
Proof. unfold Pkg.find_sections. repeat read_only_step. Qed.

Lemma read_only_read_config e p : read_only (Pkg.read_config e p).
Proof.
  unfold Pkg.read_config.
  repeat first [apply read_only_pkg_read_text | read_only_step].
Qed.

Lemma read_only_lint_errors e config : read_only (Single.lint_errors e config).
Proof.
  unfold Single.lint_errors.
  repeat first [apply read_only_discover_sections | read_only_step].
Qed.

Lemma read_only_lint_count e report_dir : read_only (Pkg.lint_count e report_dir).
Proof.
  unfold Pkg.lint_count.
  repeat first [apply read_only_find_sections | apply read_only_pkg_read_text
               | read_only_step].
Qed.

Lemma read_only_resolve_sections base html_out l :
  read_only (Single.resolve_sections base html_out l).
Proof.
  unfold Single.resolve_sections, Single.resolve_section. repeat read_only_step.
Qed.

Lemma read_only_prepare e config : read_only (prepare e config).
Proof.
  unfold prepare.
  repeat first [apply read_only_load_config | apply read_only_discover_sections
               | apply read_only_read_text | read_only_step].
Qed.

Lemma read_only_echo_relative mk p base : read_only (Single.echo_relative mk p base).
Proof. unfold Single.echo_relative. repeat read_only_step. Qed.

(** *** Commands that write *)

Lemma read_only_keeps {A} d P (c : M A) : read_only c → keeps_outside d P c.
Proof. intros Hc w Hd. destruct (Hc w) as [l ->]. simpl. eauto. Qed.

Lemma keeps_bind {A B} d P (c : M A) (k : A → M B) :
  keeps_outside d P c → (∀ a, keeps_outside d P (k a)) → keeps_outside d P (bind c k).
Proof.
  intros Hc Hk w Hd. unfold bind. destruct (Hc w Hd) as [Hd1 H1].
  destruct (c w) as [[a|e] w1]; simpl in *; [|done].
  destruct (Hk a w1 Hd1) as [Hd2 H2]. split; [done|]. eauto.
Qed.

Lemma keeps_weaken {A} d (P Q : path → Prop) (c : M A) :
  (∀ q, P q → Q q) → keeps_outside d P c → keeps_outside d Q c.
Proof.
  intros HPQ Hc w Hd. destruct (Hc w Hd) as [Hd1 H1]. split; [done|].
  intros q n Hq. apply H1. auto.
Qed.

Lemma keeps_get_cwd {A} d P (k : path → M A) :
  keeps_outside d P (k d) → keeps_outside d P (bind get_cwd k).
Proof. intros Hk w Hd. unfold bind, get_cwd. rewrite Hd. by apply Hk. Qed.

Lemma keeps_locate {A} d P p (k : path → M A) :
  keeps_outside d P (k (resolve d p)) → keeps_outside d P (bind (locate p) k).
Proof.
  intros Hk w Hd. unfold bind, locate, get_cwd, ret. simpl. rewrite Hd. by apply Hk.
Qed.

Lemma keeps_update d (P : path → Prop) op :
  (∀ f g, op f = inr g → ∀ q n, ¬ P q → lookup f q = Some n → lookup g q = Some n) →
  keeps_outside d P (update op).
Proof.
  intros Hop w Hd. rewrite update_run.
  destruct (op (files w)) as [?|g] eqn:E; simpl; eauto.
Qed.

(** Creating directories changes no entry that is there. *)
Lemma make_dirs_keeps r : ∀ u f g q n,
  make_dirs u r f = inr g → lookup f q = Some n → lookup g q = Some n.
Proof.
  induction r as [|c r IH]; intros u f g q n; simpl.
  - by intros [= <-].
  - destruct (node_at f (u ++ [c])) as [[]|] eqn:E; [done|by apply IH|].
    intros Hg Hq. eapply IH; [done|].
    rewrite lookup_store_ne; [done|].
    intros <-. assert (node_at f (u ++ [c]) = lookup f (u ++ [c])) by (by destruct u).
    congruence.
Qed.

Lemma mkdir_keeps ok p f g q n :
  mkdir ok p f = inr g → lookup f q = Some n → lookup g q = Some n.
Proof.
  unfold mkdir. destruct (node_at f p) as [[]|] eqn:E; [done| |].
  - destruct ok; [|done]. by intros [= <-].
  - destruct (node_at f (parent p)) as [[]|]; [done| |done].
    intros [= <-] Hq. rewrite lookup_store_ne; [done|].
    intros <-. destruct p; simpl in E; congruence.
Qed.

Lemma write_file_keeps p s f g q :
  write_file p s f = inr g → q ≠ p → lookup g q = lookup f q.
Proof.
  unfold write_file. intros H Hq.
  assert (lookup (store p (File s) f) q = lookup f q) by (by apply lookup_store_ne).
  repeat case_match; naive_solver.
Qed.

Lemma keeps_write_text d p s :
  keeps_outside d (λ q, q = resolve d p) (Single.write_text p s).
Proof.
  unfold Single.write_text.
  apply keeps_locate, keeps_bind; [|intros _; apply keeps_locate].
  - apply keeps_update. eauto using make_dirs_keeps.
  - apply keeps_update. intros f g Hw q n Hq. by rewrite (write_file_keeps _ _ _ _ _ Hw).
Qed.

Lemma keeps_export_pdf e d html_path pdf_path :
  keeps_outside d (λ q, q = resolve d pdf_path) (Single.export_pdf e html_path pdf_path).
Proof.
  unfold Single.export_pdf. destruct (negb _).
  - apply read_only_keeps. repeat read_only_step.
  - apply keeps_locate, keeps_bind; [|intros _; apply keeps_locate].
    + apply keeps_update. eauto using make_dirs_keeps.
    + apply keeps_bind; [apply read_only_keeps; auto with read_only|intros f0].
      apply keeps_bind; [apply read_only_keeps; auto with read_only|intros pdf].
      apply keeps_locate, keeps_update.
      intros f g Hw q n Hq. by rewrite (write_file_keeps _ _ _ _ _ Hw).
Qed.

Lemma keeps_build_html e d config out html_out :
  keeps_outside d
    (λ q, q = resolve d (join_path (pure (parent (resolve d (parse_path config))))
                                    (parse_path html_out)))
    (Single.build_html e config out html_out).
Proof.
  intros w Hd. rewrite build_html_phases. revert w Hd.
  change (keeps_outside d
    (λ q, q = resolve d (join_path (pure (parent (resolve d (parse_path config))))
                                    (parse_path html_out)))
    (λ w, (let base := base_dir_of w config in
           let out_html := join_path (pure base) (parse_path html_out) in
           let* cw := prepare e config in
           let* paths := Single.resolve_sections base html_out
                           (default [] (Single.sections cw.1)) in
           let* texts := map_cmd (λ p, query (read_file p)) paths in
           let* _ := Single.write_text out_html (built_html cw.1 cw.2 texts) in
           Single.echo_relative AssembledHtml out_html (pure base)) w)).
  intros w Hd. unfold base_dir_of. rewrite Hd. cbv zeta. revert w Hd.
  apply keeps_bind; [apply read_only_keeps, read_only_prepare|intros cw].
  apply keeps_bind; [apply read_only_keeps, read_only_resolve_sections|intros paths].
  apply keeps_bind; [apply read_only_keeps, read_only_map_cmd; auto with read_only|intros texts].
  apply keeps_bind; [apply keeps_write_text|intros _].
  apply read_only_keeps, read_only_echo_relative.
Qed.

Lemma keeps_build e d config out html_out :
  keeps_outside d
    (λ q, q = resolve d (join_path (pure (parent (resolve d (parse_path config))))
                                    (parse_path html_out)) ∨
          q = resolve d (join_path (pure (parent (resolve d (parse_path config))))
                                    (parse_path out)))
    (Single.build e config out html_out).
Proof.
  unfold Single.build. apply keeps_get_cwd.
  apply keeps_bind; [|intros _; apply keeps_bind; [|intros _]].
  - eapply keeps_weaken; [|apply keeps_build_html]. naive_solver.
  - eapply keeps_weaken; [|apply keeps_export_pdf]. naive_solver.
  - apply read_only_keeps.
    repeat first [apply read_only_echo_relative | read_only_step].
Qed.

End FrameFacts.

(** * Facts about the checks of the package *)

Module CountFacts.
Import Os Cmd Spec CmdFacts LintFacts FrameFacts.

Lemma level_pos h : 0 < Pkg.level h.
Proof. unfold Pkg.level. repeat case_bool_decide; lia. Qed.

(** The loop over the headings, started with any [last]. *)
Lemma skips_level_from last hs :
  Pkg.skips_level last hs = true ↔
  (last ≠ 0 ∧ ∃ b l, hs = b :: l ∧ last + 1 < Pkg.level b) ∨
  (∃ l1 a b l2, hs = l1 ++ a :: b :: l2 ∧ Pkg.level a + 1 < Pkg.level b).
Proof.
  revert last; induction hs as [|h hs IH]; intros last.
  - simpl. split; [done|]. intros [(_ & b & l & ? & _) | (l1 & a & b & l2 & H & _)];
      [done | by destruct l1].
  - cbn [Pkg.skips_level].
    destruct (negb (last =? 0) && (last + 1 <? Pkg.level h)) eqn:E.
    + split; [intros _|done]. left.
      apply andb_true_iff in E as [E1 E2].
      apply negb_true_iff, Nat.eqb_neq in E1. apply Nat.ltb_lt in E2. eauto.
    + rewrite IH. split.
      * intros [(_ & b & l & -> & Hb) | (l1 & a & b & l2 & -> & Hab)]; right.
        -- by exists [], h, b, l.
        -- by exists (h :: l1), a, b, l2.
      * intros [(Hl & b & l & [= <- <-] & Hb) | (l1 & a & b & l2 & H & Hab)].
        -- apply andb_false_iff in E as [E|E].
           ++ apply negb_false_iff, Nat.eqb_eq in E. done.
           ++ apply Nat.ltb_ge in E. lia.
        -- destruct l1 as [|x l1]; injection H as -> ->.
           ++ left. split; [pose proof (level_pos a); lia|]. eauto.
           ++ right. by exists l1, a, b, l2.
Qed.

(** A loop whose rounds add to the counter the number of lines that they
    print. *)
Lemma counting_loop {A} (body : nat → A → M nat) items :
  (∀ acc x w n w', body acc x w = (Ok n, w') →
     ∃ l, w' = printed w l ∧ n = acc + length l) →
  ∀ acc w n w', fold_cmd body acc items w = (Ok n, w') →
     ∃ l, w' = printed w l ∧ n = acc + length l.
Proof.
  intros Hbody. induction items as [|x items IH]; intros acc w n w'.
  - intros [= <- <-]. exists []. by rewrite printed_nil, Nat.add_0_r.
  - cbn [fold_cmd]. intros (m & w1 & H1 & H2)%bind_ok_inv.
    apply Hbody in H1 as (l1 & -> & ->).
    apply IH in H2 as (l2 & -> & ->).
    exists (l1 ++ l2). rewrite printed_app, length_app. split; [done|lia].
Qed.

Lemma pkg_read_text_run p w :
  Pkg.read_text p w = match read_file (resolve (cwd w) p) (files w) with
                      | inl e => (Raise e, w)
                      | inr s => (Ok s, w)
                      end.
Proof.
  unfold Pkg.read_text, locate, bind, get_cwd, ret. simpl. apply query_run.
Qed.

(** The counter of [lint] is the number of lines printed. *)
Lemma lint_count_lines e report_dir w n w' :
  Pkg.lint_count e report_dir w = (Ok n, w') →
  ∃ l, w' = printed w l ∧ n = length l.
Proof.
  unfold Pkg.lint_count.
  intros (sections & w1 & H1 & H)%bind_ok_inv.
  assert (w1 = w) as ->.
  { unfold Pkg.find_sections, locate, bind, get_cwd, get_files, ret in H1.
    simpl in H1. by injection H1. }
  apply bind_ok_inv in H as (m & w2 & H2 & H3).
  apply counting_loop in H2 as (l1 & -> & ->).
  - apply counting_loop in H3 as (l2 & -> & ->).
    + exists (l1 ++ l2). by rewrite printed_app, length_app.
    + intros acc name v k v'. unfold bind at 1. rewrite pkg_read_text_run.
      destruct (read_file _ _); [done|].
      unfold bind. rewrite for_each_echo. intros [= <- <-].
      eexists. split; [done|]. by rewrite length_map.
  - intros acc css v k v'.
    rewrite (bind_ok _ _ _ _ _ (InitFacts.path_exists_run _ v)).
    destruct (exists_ _ _).
    + intros [= <- <-]. exists []. by rewrite printed_nil, Nat.add_0_r.
    + intros [= <- <-]. eexists. split; [done|]. simpl. lia.
Qed.

End CountFacts.

(** * Facts about directories and files *)

Module FsFacts.
Import Os Cmd Spec CmdFacts InitFacts FrameFacts.

Lemma node_at_app_lookup f u c r : node_at f (u ++ c :: r) = lookup f (u ++ c :: r).
Proof. by destruct u. Qed.




Lemma take_lt_ne {A} k (q : list A) : k < length q → take k q ≠ q.
Proof.
  intros Hk E. apply (f_equal length) in E. rewrite length_take in E. lia.
Qed.


Lemma foldl_collapse_Forall acc cs :
  clean acc →
  clean (foldl (λ acc c, if decide (c = txt "..") then tail acc else c :: acc) acc cs).
Proof.
  unfold clean.
  revert acc; induction cs as [|c cs IH]; intros acc Hacc; [done|].
  cbn [foldl]. apply IH. case_decide.
  - destruct acc; [constructor|]. by apply Forall_cons in Hacc as [_ ?].
  - by constructor.
Qed.

(** A resolved path holds no [..]. *)
Lemma collapse_clean cs : clean (collapse cs).
Proof.
  unfold collapse, clean. apply Forall_reverse.
  apply (foldl_collapse_Forall [] cs). constructor.
Qed.

Lemma collapse_idem cs : clean cs → collapse cs = cs.
Proof. intros H. by rewrite <- (app_nil_l cs), collapse_app_clean. Qed.


Lemma resolve_clean d p :
  clean (parts p) →
  resolve d p = collapse (if absolute p then [] else d) ++ parts p.
Proof. intros H. unfold resolve. by apply collapse_app_clean. Qed.



End FsFacts.

(** * Facts about substitution *)

Module TextFacts.
Import Os Cmd Spec StrFacts.

(** [replace] puts [new] in the place of the first occurrence, and goes on
    behind it. *)
Lemma replace_from_find old new s : ∀ i,
  old ≠ [] → Str.find old s = Some i →
  Str.replace_from old new 0 s
  = take i s ++ new ++ Str.replace_from old new 0 (drop (i + length old) s).
Proof.
  induction s as [|c s IH]; intros i Hne.
  - simpl. destruct (Str.startswith [] old) eqn:E; [|done].
    destruct old; [done|discriminate].
  - intros [[E ->] | [E (j & -> & Hj)]]%find_cons.
    + by rewrite replace_from_match.
    + rewrite replace_from_nomatch by done. simpl. f_equal. by apply IH.
Qed.

Lemma replace_find old new s i :
  old ≠ [] → Str.find old s = Some i →
  Str.replace old new s
  = take i s ++ new ++ Str.replace old new (drop (i + length old) s).
Proof.
  intros Hne Hi. destruct old as [|a old]; [done|].
  by apply replace_from_find.
Qed.

(** Text without the first character of [old] is copied. *)
Lemma replace_from_skip_prefix c old new a b :
  c ∉ a →
  Str.replace_from (c :: old) new 0 (a ++ b) = a ++ Str.replace_from (c :: old) new 0 b.
Proof.
  induction a as [|x a IH]; [done|].
  intros [Hx Ha]%not_elem_of_cons. rewrite <- app_comm_cons.
  rewrite replace_from_nomatch.
  - simpl. f_equal. by apply IH.
  - simpl. destruct (Ascii.eqb_spec c x); [congruence|done].
Qed.

Lemma replace_from_here old new b :
  old ≠ [] →
  Str.replace_from old new 0 (old ++ b) = new ++ Str.replace_from old new 0 b.
Proof.
  intros Hne. rewrite replace_from_match by (done || apply startswith_app).
  by rewrite drop_app_length.
Qed.

(** Two keys without [c] that are followed by [c] at the same place are
    the same key. *)
Lemma app_sep_inj {A} (c : A) k k' x y :
  c ∉ k → c ∉ k' → k ++ c :: x = k' ++ c :: y → k = k'.
Proof.
  revert k'; induction k as [|a k IH]; intros [|a' k'] Hk Hk' E; simpl in E.
  - done.
  - injection E as <- _. set_solver.
  - injection E as -> _. set_solver.
  - injection E as -> E. f_equal. apply IH; [set_solver..|done].
Qed.

Lemma token_cons k : Pkg.token k = LBRACKET :: (k ++ [RBRACKET]).
Proof. done. Qed.

Lemma token_inj k k' : Pkg.token k = Pkg.token k' → k = k'.
Proof.
  rewrite !token_cons. intros [= E]. by apply app_inv_tail in E.
Qed.

Lemma replace_token k v s :
  Str.replace (Pkg.token k) v s = Str.replace_from (Pkg.token k) v 0 s.
Proof. done. Qed.

(** The token of another key is copied. *)
Lemma replace_other_token k k' v b :
  plain_key k → plain_key k' → k ≠ k' →
  Str.replace (Pkg.token k') v (Pkg.token k ++ b)
  = Pkg.token k ++ Str.replace (Pkg.token k') v b.
Proof.
  intros [Hl Hr] [Hl' Hr'] Hne. rewrite !replace_token.
  rewrite (token_cons k), <- !app_comm_cons, replace_from_nomatch.
  - f_equal. rewrite (token_cons k'). apply replace_from_skip_prefix.
    rewrite elem_of_app, list_elem_of_singleton. intros [?|?]; done.
  - rewrite token_cons. cbn [Str.startswith]. rewrite Ascii.eqb_refl. cbn [andb].
    destruct (Str.startswith _ _) eqn:E; [|done].
    apply startswith_spec in E as [r E]. rewrite <- !app_assoc in E. simpl in E.
    destruct Hne. by eapply app_sep_inj.
Qed.

Section tokens.
Context {T : Type} (tok val : T → text).

Local Abbreviation subst := (λ l s, foldl (λ s x, Str.replace (tok x) (val x) s) s l).

(** Substitution copies the text before the first opening bracket ... *)
Lemma subst_prefix l : ∀ a b,
  Forall (λ x, placeholder_token (tok x)) l →
  LBRACKET ∉ a →
  subst l (a ++ b) = a ++ subst l b.
Proof.
  induction l as [|x l IH]; intros a b Hl Ha; [done|].
  apply Forall_cons in Hl as [(k & Hk & _) Hl]. cbn [foldl].
  rewrite Hk, !replace_token, token_cons, replace_from_skip_prefix by done.
  by apply IH.
Qed.

(** ... copies the tokens of other keys ... *)
Lemma subst_other k l : ∀ b,
  plain_key k →
  Forall (λ x, placeholder_token (tok x) ∧ tok x ≠ Pkg.token k) l →
  subst l (Pkg.token k ++ b) = Pkg.token k ++ subst l b.
Proof.
  induction l as [|x l IH]; intros b Hk Hl; [done|].
  apply Forall_cons in Hl as [[(k' & Hk' & Hp') Hne] Hl]. cbn [foldl].
  rewrite Hk', replace_other_token by (done || congruence).
  by apply IH.
Qed.

(** ... and puts the value in the place of a token, when the value holds
    no opening bracket. *)
Lemma subst_token l x b :
  Forall (λ x, placeholder_token (tok x)) l →
  NoDup (tok <$> l) →
  x ∈ l → LBRACKET ∉ val x →
  subst l (tok x ++ b) = val x ++ subst l b.
Proof.
  intros Hl Hnd Hx Hv.
  apply list_elem_of_split in Hx as (l1 & l2 & ->).
  rewrite fmap_app, fmap_cons in Hnd.
  apply NoDup_app in Hnd as (_ & Hl1 & [Hl2 _]%NoDup_cons).
  apply Forall_app in Hl as [H1 [(k & Hk & Hp) H2]%Forall_cons].
  rewrite !foldl_app. cbn [foldl].
  rewrite Hk, (subst_other k l1).
  - rewrite replace_token, replace_from_here by done.
    rewrite <- replace_token. by rewrite (subst_prefix l2).
  - done.
  - apply Forall_forall. intros y Hy. split.
    + by apply (proj1 (Forall_forall _ _) H1).
    + rewrite <- Hk. intros E.
      apply (Hl1 (tok x)); [|left].
      rewrite <- E. by apply list_elem_of_fmap_2.
Qed.
End tokens.

(** *** Dictionaries *)

Lemma dict_get_None d k : k ∉ d.*1 → Pkg.dict_get d k = None.
Proof.
  induction d as [|[k' v] d IH]; [done|]. simpl.
  intros [Hk Hd]%not_elem_of_cons. rewrite decide_False by done. auto.
Qed.

Lemma dict_get_set k v d k' :
  Pkg.dict_get (Pkg.dict_set k v d) k'
  = if decide (k = k') then Some v else Pkg.dict_get d k'.
Proof.
  induction d as [|[k0 v0] d IH]; simpl.
  - done.
  - destruct (decide (k0 = k)) as [->|Hne]; simpl.
    + by destruct (decide (k = k')).
    + rewrite IH. destruct (decide (k0 = k')) as [->|]; [|done].
      by rewrite decide_False.
Qed.

Lemma dict_set_keys k v d :
  (Pkg.dict_set k v d).*1 = if decide (k ∈ d.*1) then d.*1 else d.*1 ++ [k].
Proof.
  induction d as [|[k0 v0] d IH].
  - destruct (decide (k ∈ ([] : Pkg.dict).*1)) as [H|H]; [by apply elem_of_nil in H|done].
  - cbn [Pkg.dict_set]. destruct (decide (k0 = k)) as [->|Hne].
    + rewrite decide_True by (rewrite fmap_cons; apply list_elem_of_here). done.
    + rewrite !fmap_cons, IH. cbn [fst].
      destruct (decide (k ∈ d.*1)) as [H|H].
      * by rewrite decide_True by (by right).
      * rewrite decide_False; [done|]. by intros [?|?]%elem_of_cons.
Qed.

(** [update] keeps the keys that are there in their places, and puts the
    new keys behind them. *)
Lemma dict_update_keys extra : ∀ d,
  ∃ new, (Pkg.dict_update d extra).*1 = d.*1 ++ new ∧
         new ⊆ extra.*1 ∧ (NoDup d.*1 → NoDup (d.*1 ++ new)).
Proof.
  unfold Pkg.dict_update.
  induction extra as [|[k v] extra IH]; intros d; simpl.
  - exists []. rewrite app_nil_r. split; [done|].
    split; [by intros x Hx%elem_of_nil | done].
  - destruct (IH (Pkg.dict_set k v d)) as (new & Hk & Hsub & Hnd).
    rewrite dict_set_keys in Hk, Hnd. destruct (decide (k ∈ d.*1)).
    + exists new. split; [done|]. split; [|done].
      intros x Hx. right. by apply Hsub.
    + exists (k :: new). rewrite <- app_assoc in Hk, Hnd. simpl in Hk.
      split; [done|]. split.
      * intros x [->|Hx]%elem_of_cons; [left | right; by apply Hsub].
      * intros Hd. apply Hnd. apply NoDup_app. split; [done|].
        split; [by intros x Hx ->%list_elem_of_singleton | apply NoDup_singleton].
Qed.

(** A key of [extra] gets the value that [extra] gives it; the other keys
    keep theirs. *)
Lemma dict_get_update extra : ∀ d k,
  NoDup extra.*1 →
  Pkg.dict_get (Pkg.dict_update d extra) k
  = match Pkg.dict_get extra k with
    | Some v => Some v
    | None => Pkg.dict_get d k
    end.
Proof.
  unfold Pkg.dict_update.
  induction extra as [|[k0 v0] extra IH]; intros d k; [done|].
  simpl. intros [Hk0 Hnd]%NoDup_cons. rewrite IH by done.
  rewrite dict_get_set. destruct (decide (k0 = k)) as [->|Hne]; [|done].
  by rewrite dict_get_None.
Qed.

(** *** The numeric prefix *)

Lemma span_digits_app ds : ∀ r,
  Forall (λ c, Py.is_digit c = true) ds →
  match r with [] => True | c :: _ => Py.is_digit c = false end →
  Py.span_digits (ds ++ r) = (ds, r).
Proof.
  induction ds as [|d ds IH]; intros r Hds Hr.
  - destruct r as [|c r]; [done|]. simpl. by rewrite Hr.
  - apply Forall_cons in Hds as [Hd Hds]. simpl. by rewrite Hd, IH.
Qed.

Lemma span_digits_spec s :
  s = (Py.span_digits s).1 ++ (Py.span_digits s).2 ∧
  Forall (λ c, Py.is_digit c = true) (Py.span_digits s).1 ∧
  match (Py.span_digits s).2 with [] => True | c :: _ => Py.is_digit c = false end.
Proof.
  induction s as [|c s (IH1 & IH2 & IH3)]; [by repeat constructor|].
  simpl. destruct (Py.is_digit c) eqn:E.
  - destruct (Py.span_digits s) as [ds r]. simpl in *.
    split; [by f_equal|]. split; [by constructor|done].
  - simpl. by repeat constructor.
Qed.

End TextFacts.

(** * Facts about directory listings and the scaffold *)

Module ScaffoldFacts.
Import Os Cmd Spec SortFacts CmdFacts LintFacts InitFacts FrameFacts FsFacts.

Lemma lookup_is_Some f p : is_Some (lookup f p) ↔ p ∈ f.*1.
Proof.
  induction f as [|[q n] f IH]; simpl.
  - split; [by intros [? ?] | by intros ?%elem_of_nil].
  - rewrite elem_of_cons. destruct (decide (q = p)) as [->|Hne].
    + split; [by left | eauto].
    + rewrite IH. split; [by right | by intros [?|?]].
Qed.

(** A directory lists the names of the entries directly below it. *)
Lemma listdir_spec f d n : n ∈ listdir f d ↔ is_Some (lookup f (d ++ [n])).
Proof.
  unfold listdir. rewrite elem_of_remove_dups, list_elem_of_omap, lookup_is_Some.
  rewrite list_elem_of_fmap. split.
  - intros ([p nd] & Hin & Hg). exists (p, nd). split; [|done]. simpl in *.
    destruct (last p) as [m|]; [|done].
    destruct (decide (p = d ++ [m])); [|done]. congruence.
  - intros ([p nd] & Hp & Hin). simpl in Hp. subst p.
    exists (d ++ [n], nd). split; [done|]. simpl.
    rewrite last_snoc. by rewrite decide_True.
Qed.

Lemma glob_html_spec f d n :
  n ∈ glob f d STAR_HTML ↔
  is_Some (lookup f (d ++ [n])) ∧ ∃ stem, n = stem ++ txt ".html".
Proof.
  unfold glob.
  by rewrite list_elem_of_filter, (glob_match_star_lits (txt ".html")), listdir_spec, (comm and).
Qed.

(** The section files of the scaffold. *)
Lemma scaffold_section_names R C n :
  is_Some (lookup (scaffold_tree R C) [txt "sections"; n]) ↔ n ∈ Single.SAMPLE_SECTIONS.*1.
Proof.
  rewrite lookup_is_Some. split.
  - intros Hin. unfold scaffold_tree in Hin. rewrite !fmap_cons in Hin. simpl in Hin.
    repeat (apply elem_of_cons in Hin as [Hin|Hin];
            [first [discriminate Hin | injection Hin as ->; simpl; set_unfold; tauto]|]).
    by apply elem_of_nil in Hin.
  - intros Hin. simpl in Hin.
    repeat (apply elem_of_cons in Hin as [->|Hin];
            [unfold scaffold_tree; rewrite !fmap_cons; simpl; set_unfold; tauto|]).
    by apply elem_of_nil in Hin.
Qed.

Lemma three_sorted_alike (names : list text) :
  names ≡ₚ Single.SAMPLE_SECTIONS.*1 →
  Py.sorted Py.text_lt id names = Single.SAMPLE_SECTIONS.*1 ∧
  Py.sorted Py.pair_lt Single.key names = Single.SAMPLE_SECTIONS.*1.
Proof.
  intros Hp. split.
  - rewrite (sorted_unique Py.text_lt id text_lt_irrefl text_lt_trans
               text_lt_total names Single.SAMPLE_SECTIONS.*1 Hp); [done|].
    rewrite Hp. refine (bool_decide_unpack _ _). by vm_compute.
  - rewrite (sorted_unique Py.pair_lt Single.key pair_lt_irrefl pair_lt_trans
               pair_lt_total names Single.SAMPLE_SECTIONS.*1 Hp); [done|].
    rewrite Hp. refine (bool_decide_unpack _ _). by vm_compute.
Qed.

(** The loop of [lint] over files without findings. *)
Lemma lint_loop_clean e sec_dir names : ∀ acc w,
  Forall (λ n, ∃ c, read_file (sec_dir ++ [n]) (files w) = inr c ∧
                    Single.file_errors e n c = []) names →
  fold_cmd (λ errors name,
              let* content := query (read_file (sec_dir ++ [name])) in
              ret (errors ++ Single.file_errors e name content)) acc names w
  = (Ok acc, w).
Proof.
  induction names as [|n names IH]; intros acc w Hall; [done|].
  apply Forall_cons in Hall as [(c & Hc & He) Hall].
  cbn [fold_cmd]. unfold bind at 1 2. rewrite query_run, Hc. simpl.
  rewrite He, app_nil_r. by apply IH.
Qed.

(** A tree put below [t]. *)
Lemma lookup_rerooted t tree q :
  lookup (map (λ e : path * node, (t ++ e.1, e.2)) tree) (t ++ q) = lookup tree q.
Proof.
  induction tree as [|[p n] tree IH]; [done|]. simpl.
  destruct (decide (p = q)) as [->|Hne].
  - by rewrite decide_True.
  - rewrite decide_False; [done|]. by intros ?%app_inv_head.
Qed.

Lemma node_at_rerooted t tree q :
  t ≠ [] → lookup tree [] = None →
  node_at ((t, Dir) :: map (λ e : path * node, (t ++ e.1, e.2)) tree) (t ++ q)
  = node_at tree q.
Proof.
  intros Ht Hroot. destruct q as [|c q].
  - rewrite app_nil_r, node_at_lookup by done. simpl. by rewrite decide_True.
  - rewrite node_at_app_lookup. simpl. rewrite decide_False.
    + apply lookup_rerooted.
    + intros E. apply (f_equal length) in E. rewrite length_app in E. simpl in E. lia.
Qed.

End ScaffoldFacts.

(** * Facts about the package's init *)

Module PkgInitFacts.
Import Os Cmd Spec CmdFacts InitFacts FsFacts.


Section steps.
Context (t : path) (f : fs) (d : path) (c : list (stream * message)).
Hypothesis t_not_root : t ≠ [].
Hypothesis above : ∀ k, 0 < k < length t → lookup f (take k t) = Some Dir.



End steps.


End PkgInitFacts.

(** * Facts about the package's build *)

Module PkgBuildFacts.
Import Os Cmd Spec CmdFacts InitFacts FrameFacts FsFacts CountFacts PkgInitFacts.










(** *** Reading *)

Lemma read_config_ok e p w cfg w' :
  Pkg.read_config e p w = (Ok cfg, w') → w' = w.
Proof.
  unfold Pkg.read_config. rewrite (bind_ok _ _ _ _ _ (path_exists_run _ w)).
  destruct (exists_ _ _); simpl; [|by intros [= _ <-]].
  unfold bind. rewrite pkg_read_text_run.
  destruct (read_file _ _); [done|].
  unfold of_sum. by destruct (Pkg.yaml_safe_load e _); intros [= _ <-].
Qed.

(** The section texts are read in the order of the names, and each has
    its placeholders filled. *)
Lemma read_sections_ok (dir : ppath) m ph names : ∀ w l w',
  map_cmd (λ n,
      let* html := Pkg.read_text (join_path dir (PPath false [n])) in
      ret (Pkg.substitute_placeholders html m ph)) names w = (Ok l, w') →
  w' = w ∧
  ∃ contents,
    Forall2 (λ n c, read_file (resolve (cwd w) (join_path dir (PPath false [n]))) (files w)
                    = inr c) names contents ∧
    l = map (λ c, Pkg.substitute_placeholders c m ph) contents.
Proof.
  induction names as [|n names IH]; intros w l w'.
  - intros [= <- <-]. split; [done|]. exists []. by split; [constructor|].
  - cbn [map_cmd]. rewrite bind_bind. unfold bind at 1. rewrite pkg_read_text_run.
    destruct (read_file _ _) as [?|c] eqn:E; [done|]. rewrite bind_ret.
    intros (l' & w1 & H1 & H2)%bind_ok_inv. injection H2 as <- <-.
    apply IH in H1 as (-> & contents & Hall & ->). split; [done|].
    exists (c :: contents). by split; [constructor|].
Qed.

(** *** Writing *)

Lemma render_report_run e sections_html m url hb p w w' :
  Pkg.render_report e sections_html m url hb p w = (Ok tt, w') →
  ∃ html, Pkg.render_template e sections_html m url hb = inr html ∧
          cwd w' = cwd w ∧ console w' = console w ∧
          node_at (files w') (resolve (cwd w) p) = Some (File html).
Proof.
  unfold Pkg.render_report.
  intros (html & w1 & H1 & H)%bind_ok_inv.
  unfold of_sum in H1. destruct (Pkg.render_template _ _ _ _ _) as [?|html'] eqn:E;
    [done|]. injection H1 as -> <-.
  apply bind_ok_inv in H as (d & w2 & H2 & H).
  unfold locate, bind, get_cwd, ret in H2. simpl in H2. injection H2 as <- <-.
  apply bind_ok_inv in H as ([] & w3 & H3 & H).
  rewrite update_run in H3. destruct (mkdir_parents _ _); [done|].
  injection H3 as <-.
  unfold Pkg.write_text, locate, bind, get_cwd, ret in H. simpl in H.
  rewrite update_run in H. simpl in H.
  destruct (write_file _ _ _) as [?|f2] eqn:Ew; [done|]. injection H as <-.
  exists html. simpl. eauto using write_file_ok.
Qed.

(** The theme step returns one of three values. *)
Lemma copy_theme_value cfg rdir dist w hb w' :
  Pkg.copy_theme cfg rdir dist w = (Ok hb, w') →
  hb ∈ [None; Some (txt "theme"); Some (txt "style")].
Proof.
  unfold Pkg.copy_theme. intros H.
  apply bind_ok_inv in H as (local_there & w1 & _ & H).
  destruct local_there.
  - repeat (apply bind_ok_inv in H as (? & ? & _ & H)).
    injection H as <- _. apply list_elem_of_further, list_elem_of_here.
  - apply bind_ok_inv in H as (style_there & w2 & _ & H). destruct style_there.
    + repeat (apply bind_ok_inv in H as (? & ? & _ & H)).
      injection H as <- _. do 2 apply list_elem_of_further. apply list_elem_of_here.
    + injection H as <- _. apply list_elem_of_here.
Qed.

(** *** The commands of the build stay in their directory *)

Lemma keeps_put_files d f : keeps_outside d (λ _, True) (put_files f).
Proof. intros w Hd. split; [done|]. by intros q n []. Qed.

(** One step of the proof that a command stays in the working directory
    and keeps what is outside [P]; the updates are left. *)
Ltac keeps_step :=
  lazymatch goal with
  | |- keeps_outside _ _ (bind (locate _) _) => apply keeps_locate
  | |- keeps_outside _ _ (bind get_cwd _) => apply keeps_get_cwd
  | |- keeps_outside _ _ (bind _ _) => apply keeps_bind; [|intros ?]
  | |- keeps_outside _ _ (for_each _ _) => unfold for_each
  | |- keeps_outside _ _ (if ?b then _ else _) => destruct b
  | |- keeps_outside _ _ (match ?x with _ => _ end) => destruct x
  | |- keeps_outside _ _ (update _) => apply keeps_update
  | |- keeps_outside _ _ (put_files _) => apply keeps_put_files
  | |- keeps_outside _ _ _ => apply read_only_keeps; repeat read_only_step
  end.

Lemma keeps_fold_cmd {A S} d P (body : S → A → M S) l :
  (∀ acc x, keeps_outside d P (body acc x)) → ∀ acc, keeps_outside d P (fold_cmd body acc l).
Proof.
  intros Hbody. induction l as [|x l IH]; intros acc; simpl.
  - apply read_only_keeps, read_only_ret.
  - apply keeps_bind; auto.
Qed.

Lemma stays_diagrams e d rdir dist : keeps_outside d (λ _, True) (Pkg.diagrams e rdir dist).
Proof.
  unfold Pkg.diagrams.
  repeat first [apply keeps_fold_cmd; intros ? ? | keeps_step]; by intros.
Qed.

Lemma stays_copy_theme d cfg rdir dist :
  keeps_outside d (λ _, True) (Pkg.copy_theme cfg rdir dist).
Proof. unfold Pkg.copy_theme. repeat keeps_step; by intros. Qed.

(** *** Commands that leave the rest of the file system as it is *)








#[global] Hint Resolve read_only_read_config read_only_find_sections
  read_only_pkg_read_text : read_only.




(** *** What the build leaves alone *)





End PkgBuildFacts.

(** * What lint looks at *)

Module LintScopeFacts.
Import Os Cmd Spec CmdFacts LintFacts InitFacts.

Lemma lookup_below d f q : under d q = true → lookup (below d f) q = lookup f q.
Proof.
  intros Hq. unfold below. induction f as [|[p n] f IH]; [done|].
  rewrite filter_cons. cbn [fst lookup].
  destruct (decide (under d p = true)) as [Hp|Hp].
  - cbn [lookup]. by rewrite IH.
  - rewrite IH. destruct (decide (p = q)) as [->|]; [done|done].
Qed.

Lemma listdir_below d f : listdir (below d f) d = listdir f d.
Proof.
  unfold listdir, below. f_equal.
  induction f as [|[p n] f IH]; [done|].
  rewrite filter_cons. cbn [fst].
  destruct (decide (under d p = true)) as [Hp|Hp].
  - cbn [omap list_omap fst]. cbn [omap list_omap] in IH. by rewrite IH.
  - rewrite IH. cbn [omap list_omap fst].
    destruct (last p) as [c|]; [|done].
    destruct (decide (p = d ++ [c])) as [->|]; [|done].
    by rewrite under_app in Hp.
Qed.

Section alike.
Context (d : path) (f1 f2 : fs).
Hypothesis same_below : below d f1 = below d f2.

Lemma lookup_alike q : under d q = true → lookup f1 q = lookup f2 q.
Proof.
  intros Hq. by rewrite <- (lookup_below d f1), <- (lookup_below d f2), same_below.
Qed.

Lemma node_at_alike q : under d q = true → node_at f1 q = node_at f2 q.
Proof. destruct q; [done|]. apply lookup_alike. Qed.

Lemma exists_alike : exists_ f1 d = exists_ f2 d.
Proof.
  unfold exists_. rewrite node_at_alike; [done|].
  rewrite <- (app_nil_r d) at 2. apply under_app.
Qed.

Lemma glob_alike pat : glob f1 d pat = glob f2 d pat.
Proof.
  unfold glob. by rewrite <- (listdir_below d f1), <- (listdir_below d f2), same_below.
Qed.

Lemma read_file_alike n : read_file (d ++ [n]) f1 = read_file (d ++ [n]) f2.
Proof. unfold read_file. by rewrite node_at_alike by apply under_app. Qed.

End alike.

(** The loop of [lint] over the section files reads them and nothing
    else. *)
Lemma lint_loop_alike e sec_dir names : ∀ acc w1 w2,
  (∀ n, read_file (sec_dir ++ [n]) (files w1) = read_file (sec_dir ++ [n]) (files w2)) →
  ∃ r,
    fold_cmd (λ errors name,
                let* content := query (read_file (sec_dir ++ [name])) in
                ret (errors ++ Single.file_errors e name content)) acc names w1 = (r, w1) ∧
    fold_cmd (λ errors name,
                let* content := query (read_file (sec_dir ++ [name])) in
                ret (errors ++ Single.file_errors e name content)) acc names w2 = (r, w2).
Proof.
  induction names as [|n names IH]; intros acc w1 w2 Hread.
  - by exists (Ok acc).
  - cbn [fold_cmd]. unfold bind at 1 2 4 5. rewrite !query_run, <- Hread.
    destruct (read_file _ (files w1)) as [x|c].
    + by exists (Raise x).
    + cbn [ret]. by apply IH.
Qed.

(** The checks of [lint], step by step. *)
Lemma lint_errors_run e config w :
  let sd := sections_dir_of w config in
  let names := glob (files w) sd STAR_HTML in
  Single.lint_errors e config w =
  if exists_ (files w) sd then
    fold_cmd (λ errors name,
                let* content := query (read_file (sd ++ [name])) in
                ret (errors ++ Single.file_errors e name content))
      (match names with [] => [SectionsEmpty] | _ => [] end) names
      (printed w (if bool_decide (map (λ n, txt "sections/" ++ n)
                                      (Py.sorted Py.text_lt id names)
                                  = Single.section_order names)
                  then [] else [(Stdout, OrderWarning)]))
  else (Ok [NoSectionsDir], w).
Proof.
  intros sd names. unfold Single.lint_errors.
  unfold bind at 1 2. unfold get_cwd, get_files at 1. cbv beta iota.
  fold (base_dir_of w config). fold (sections_dir_of w config). fold sd.
  destruct (exists_ (files w) sd); cbn [negb]; cbv iota; [|done].
  unfold bind at 1. unfold Single.discover_sections.
  unfold bind at 1. unfold get_files, ret at 1. cbv beta iota. fold names.
  unfold bind at 1.
  destruct (bool_decide _); cbv beta iota.
  - unfold ret at 1. cbv beta iota. by rewrite printed_nil.
  - by rewrite echo_run.
Qed.

Lemma lint_errors_alike e config w1 w2 :
  cwd w1 = cwd w2 →
  below (sections_dir_of w1 config) (files w1)
  = below (sections_dir_of w1 config) (files w2) →
  ∃ r l, Single.lint_errors e config w1 = (r, printed w1 l) ∧
         Single.lint_errors e config w2 = (r, printed w2 l).
Proof.
  intros Hcwd Hbelow. rewrite !lint_errors_run. cbv zeta.
  assert (sections_dir_of w2 config = sections_dir_of w1 config) as ->
    by (unfold sections_dir_of, base_dir_of; by rewrite Hcwd).
  set (sd := sections_dir_of w1 config) in *.
  rewrite <- (exists_alike sd _ _ Hbelow), <- !(glob_alike sd _ _ Hbelow).
  destruct (exists_ (files w1) sd).
  - match goal with
    | |- context [printed w1 ?l] =>
        destruct (lint_loop_alike e sd (glob (files w1) sd STAR_HTML)
                    (match glob (files w1) sd STAR_HTML with
                     | [] => [SectionsEmpty] | _ => [] end)
                    (printed w1 l) (printed w2 l)
                    (read_file_alike sd _ _ Hbelow)) as (r & H1 & H2);
        exists r, l; by rewrite H1, H2
    end.
  - exists (Ok [NoSectionsDir]), []. by rewrite !printed_nil.
Qed.

End LintScopeFacts.

(** * The properties of the specification *)

Module Claims.
Import Os Cmd Spec StrFacts SortFacts CmdFacts SingleFacts.

(** ** Placeholder substitution *)

(** C7: on a text that holds none of the placeholder tokens, substitution
    returns the text as it is, for any configuration values; applying it
    once or twice gives the same.  This holds for [apply_placeholders] of
    the single-file program and for [substitute_placeholders] of the
    package, each with its own tokens. *)
Theorem placeholders_token_free (html : text) :
  (∀ cfg,
     Forall (λ tk, Str.contains tk.1 html = false) Single.PLACEHOLDERS →
     Single.apply_placeholders html cfg = html ∧
     Single.apply_placeholders (Single.apply_placeholders html cfg) cfg
     = Single.apply_placeholders html cfg) ∧
  (∀ m extra,
     Forall (λ kv, Str.contains (Pkg.token kv.1) html = false)
            (Pkg.placeholder_mapping m extra) →
     Pkg.substitute_placeholders html m extra = html ∧
     Pkg.substitute_placeholders (Pkg.substitute_placeholders html m extra) m extra
     = Pkg.substitute_placeholders html m extra).
Proof.
  split.
  - intros cfg H.
    assert (Single.apply_placeholders html cfg = html) as E.
    { unfold Single.apply_placeholders.
      by apply (foldl_replace_absent (λ tk, tk.1) (λ tk, tk.2 cfg)). }
    by rewrite !E.
  - intros m extra H.
    assert (Pkg.substitute_placeholders html m extra = html) as E.
    { unfold Pkg.substitute_placeholders.
      by apply (foldl_replace_absent (λ kv, Pkg.token kv.1) (λ kv, Pkg.py_str kv.2)). }
    by rewrite !E.
Qed.

Lemma placeholders_token_free_witness :
  Single.apply_placeholders Example.wrapper_bare Example.cfg0 = Example.wrapper_bare ∧
  Pkg.substitute_placeholders Example.wrapper_bare
    [(txt "title", Pkg.SStr (txt "Report")); (txt "date", Pkg.SInt 2025)]
    (Some [(txt "COMPANY", Pkg.SStr (txt "Acme"))]) = Example.wrapper_bare.
Proof.
  split.
  - apply (proj1 (placeholders_token_free Example.wrapper_bare) Example.cfg0).
    vm_compute. repeat constructor.
  - apply (proj2 (placeholders_token_free Example.wrapper_bare)).
    vm_compute. repeat constructor.
Defined.

(** ** Placing the sections *)

(** C1, as amended: when the assembled wrapper (the wrapper after
    placeholder substitution, configuration injection and theme override)
    holds the end marker, or else a closing body tag, at index [i] for the
    first time, the text that [build] writes is the assembled wrapper with
    the section texts, joined by newlines and followed by one newline,
    inserted once at index [i], that is, before that first occurrence. *)
Theorem sections_placed_before_anchor cfg wrapper texts (i : nat) :
  let assembled := Single.assemble (Single.with_sections cfg []) wrapper in
  let combined := Str.join [LF] texts in
  Str.find Single.MARKER assembled = Some i ∨
  (Str.find Single.MARKER assembled = None ∧
   Str.find Single.BODY_END assembled = Some i) →
  built_html cfg wrapper texts
  = take i assembled ++ combined ++ [LF] ++ drop i assembled ∧
  (∃ post, drop i assembled = anchor assembled ++ post) ∧
  (∀ j, j < i → Str.startswith (drop j assembled) (anchor assembled) = false).
Proof.
  intros assembled combined H. unfold built_html, Single.place_sections, anchor.
  fold assembled combined.
  destruct H as [H | [Hnone H]].
  - rewrite (find_some_contains _ _ _ H).
    rewrite (replace_first_find _ _ _ _ H), (find_some_drop _ _ _ H).
    rewrite <- !app_assoc. eauto using find_some_first.
  - apply find_none in Hnone. rewrite Hnone.
    rewrite (replace_first_find _ _ _ _ H), (find_some_drop _ _ _ H).
    rewrite <- !app_assoc. eauto using find_some_first.
Qed.

Lemma sections_placed_before_anchor_witness :
  built_html Example.cfg0 Example.wrapper0 [txt "<p>one</p>"; txt "<p>two</p>"]
  = take 196 (Single.assemble (Single.with_sections Example.cfg0 []) Example.wrapper0)
    ++ Str.join [LF] [txt "<p>one</p>"; txt "<p>two</p>"] ++ [LF]
    ++ drop 196 (Single.assemble (Single.with_sections Example.cfg0 []) Example.wrapper0).
Proof.
  apply (sections_placed_before_anchor Example.cfg0 Example.wrapper0
           [txt "<p>one</p>"; txt "<p>two</p>"] 196).
  left. vm_compute. reflexivity.
Defined.

(** C1, as stated, fails: for a wrapper without end marker and without
    closing body tag, [build] writes the wrapper without the sections. *)
Lemma sections_not_placed_without_anchor :
  built_html Example.cfg0 Example.wrapper_bare [txt "<h1>A</h1>"] = Example.wrapper_bare ∧
  ¬ Str.occurs (Str.join [LF] [txt "<h1>A</h1>"])
      (built_html Example.cfg0 Example.wrapper_bare [txt "<h1>A</h1>"]).
Proof.
  split; [by vm_compute|]. apply contains_false. by vm_compute.
Qed.

(** ** The injected configuration *)

(** C9: whatever sections the configuration declares or the disk holds,
    the text that [build] writes is assembled for a configuration whose
    sections are emptied ([build_html_phases], [built_html]); so the script
    injected before every end of the head is the snapshot whose sections
    entry is the empty list. *)
Theorem injected_snapshot_has_no_sections cfg wrapper :
  (∀ e config out html_out w,
     Single.build_html e config out html_out w =
     (let base := base_dir_of w config in
      let out_html := join_path (pure base) (parse_path html_out) in
      let* cw := prepare e config in
      let* paths := Single.resolve_sections base html_out
                      (default [] (Single.sections cw.1)) in
      let* texts := map_cmd (λ p, query (read_file p)) paths in
      let* _ := Single.write_text out_html (built_html cw.1 cw.2 texts) in
      Single.echo_relative AssembledHtml out_html (pure base)) w) ∧
  Single.sections (Single.with_sections cfg []) = Some [] ∧
  Single.boot_script (Single.with_sections cfg []) = empty_sections_snapshot cfg ∧
  Single.assemble (Single.with_sections cfg []) wrapper =
    (let html := Str.replace (txt "</head>")
                   (empty_sections_snapshot cfg ++ [LF] ++ txt "</head>")
                   (Single.apply_placeholders wrapper cfg) in
     match Single.theme_given cfg with
     | Some t => Single.override_theme_links html t
     | None => html
     end) ∧
  ∀ texts, built_html cfg wrapper texts =
           Single.place_sections (Single.assemble (Single.with_sections cfg []) wrapper)
                                 (Str.join [LF] texts).
Proof. split; [apply build_html_phases | done]. Qed.

(** ** Theme override *)







(** ** Section discovery *)





(** ** Missing section files *)



(** ** A wrapper without end marker and without closing body tag *)

(** C10, as amended: when the assembled wrapper (the wrapper after
    placeholder substitution, configuration injection and theme override)
    holds neither the end marker nor a closing body tag, and the steps of
    the build succeed, the HTML written is the assembled wrapper alone: the
    sections are left out, nothing is printed about it (the error stream
    gets the warnings for missing section files and nothing else), and the
    build reports the HTML file as assembled. *)
Theorem sections_omitted_without_anchor e config out html_out w cfg wrapper w1 texts w2 rel :
  let base := base_dir_of w config in
  let out_html := join_path (pure base) (parse_path html_out) in
  let listed := default [] (Single.sections cfg) in
  let found := omap (section_file (files w) (cwd w) base html_out) listed in
  let warnings := missing_warnings (files w) (cwd w) base html_out listed in
  let assembled := Single.assemble (Single.with_sections cfg []) wrapper in
  prepare e config w = (Ok (cfg, wrapper), w1) →
  Forall2 (λ p t, read_file p (files w) = inr t) found texts →
  Str.contains Single.MARKER assembled = false →
  Str.contains Single.BODY_END assembled = false →
  Single.write_text out_html assembled (printed w warnings) = (Ok tt, w2) →
  relative_to out_html (pure base) = Some rel →
  built_html cfg wrapper texts = assembled ∧
  Single.build_html e config out html_out w
  = (Ok tt, printed w2 [(Stdout, AssembledHtml rel)]) ∧
  node_at (files w2) (resolve (cwd w) out_html) = Some (File assembled) ∧
  console (printed w2 [(Stdout, AssembledHtml rel)])
  = console w ++ warnings ++ [(Stdout, AssembledHtml rel)].
Proof.
  intros base out_html listed found warnings assembled
         Hprep Hread Hmarker Hbody Hwrite Hrel.
  assert (built_html cfg wrapper texts = assembled) as E.
  { unfold built_html, Single.place_sections. fold assembled.
    rewrite Hmarker. by apply replace_first_absent. }
  split; [done|]. rewrite <- E in Hwrite |- *.
  destruct (build_html_run e config out html_out w cfg wrapper w1 texts w2 rel)
    as (Hb & Hf & Hc); [done..|].
  split; [done|]. split; [done|].
  simpl. by rewrite Hc, <- app_assoc.
Qed.

Lemma sections_omitted_without_anchor_witness :
  ∃ w2,
    Single.build_html Example.single_env (txt "config.yaml") (txt "build/report.pdf")
      (txt "build/report.tmp.html") (Example.report_world Example.wrapper_bare)
    = (Ok tt, printed w2 [(Stdout, AssembledHtml [txt "build"; txt "report.tmp.html"])]) ∧
    node_at (files w2) (Example.REPORT ++ [txt "build"; txt "report.tmp.html"])
    = Some (File Example.wrapper_bare).
Proof.
  eexists.
  edestruct (sections_omitted_without_anchor Example.single_env (txt "config.yaml")
               (txt "build/report.pdf") (txt "build/report.tmp.html")
               (Example.report_world Example.wrapper_bare) Example.loaded0
               Example.wrapper_bare (Example.report_world Example.wrapper_bare)
               [Example.section_a])
    as (_ & Hbuild & Hfile & _).
  - by vm_compute.
  - repeat constructor.
  - by vm_compute.
  - by vm_compute.
  - vm_compute. reflexivity.
  - by vm_compute.
  - split; [exact Hbuild | exact Hfile].
Defined.

(** C10, as stated, fails: a wrapper template may hold neither tag and
    still get one from a configuration value; then the sections are placed
    before it. *)
Lemma sections_placed_by_title :
  Str.contains Single.MARKER Example.wrapper_title = false ∧
  Str.contains Single.BODY_END Example.wrapper_title = false ∧
  built_html Example.cfg_body_title Example.wrapper_title [txt "<p>s</p>"]
  = txt "<h1><p>s</p>" ++ [LF] ++ txt "</body></h1>".
Proof. by vm_compute. Qed.

(** ** PDF export without Playwright *)

(** C3, as amended: in the single-file program, when Playwright is absent
    the PDF step prints its two-line warning and does nothing else, so a
    build that has written the assembled HTML ends with exit status 0 (as
    long as the final report of a PDF file does not fail: no file at the
    PDF path, or a PDF path below the base directory).  In the package,
    [build --pdf] without Playwright has written the HTML too, but it then
    prints a message and ends with exit status 1. *)
Theorem pdf_renderer_absent :
  (∀ e config out html_out w w1,
     let base := base_dir_of w config in
     let out_html := join_path (pure base) (parse_path html_out) in
     let out_pdf := join_path (pure base) (parse_path out) in
     Single.playwright_available e = false →
     Single.build_html e config out html_out w = (Ok tt, w1) →
     exists_ (files w1) (resolve (cwd w) out_pdf) = false ∨
       is_Some (relative_to out_pdf (pure base)) →
     ∃ last,
       Single.build e config out html_out w
       = (Ok tt, printed w1 ([(Stderr, PlaywrightMissing); (Stderr, HtmlStillProduced)]
                             ++ last)) ∧
       exit_status (Single.build e config out html_out w).1 = 0%Z ∧
       ∃ html, node_at (files w1) (resolve (cwd w) out_html) = Some (File html)) ∧
  (∀ e report_dir out_dir gen w p w1,
     Pkg.playwright_available e = false →
     Pkg.build_html e report_dir out_dir gen w = (Ok p, w1) →
     Pkg.build e report_dir out_dir true gen w
     = (Raise (TyperExit 1), printed w1 [(Stdout, PkgPlaywrightMissing)]) ∧
     exit_status (Pkg.build e report_dir out_dir true gen w).1 = 1%Z ∧
     ∃ html, node_at (files w1) (resolve (cwd w1) p) = Some (File html)).
Proof.
  split.
  - intros e config out html_out w w1 base out_html out_pdf Hpw Hbuild Hpdf.
    destruct (build_html_ok _ _ _ _ _ _ Hbuild) as (Hcwd & cfg & wrapper & texts & Hfile).
    assert (∃ last,
      Single.build e config out html_out w
      = (Ok tt, printed w1 ([(Stderr, PlaywrightMissing); (Stderr, HtmlStillProduced)]
                            ++ last))) as [last Hrun].
    { unfold Single.build. unfold bind at 1. unfold get_cwd at 1. cbv beta iota.
      rewrite (bind_ok _ _ _ _ _ Hbuild).
      unfold Single.export_pdf. rewrite Hpw. simpl negb. cbv iota.
      unfold bind, echo, path_exists, locate, get_cwd, get_files, ret. simpl.
      subst base out_html out_pdf. unfold base_dir_of in *.
      unfold printed. rewrite Hcwd.
      destruct Hpdf as [Hno | [rel Hrel]].
      - rewrite Hno. exists []. simpl. by rewrite <- !app_assoc.
      - destruct (exists_ _ _).
        + rewrite echo_relative_run, Hrel. exists [(Stdout, PdfWritten rel)].
          unfold printed. simpl. by rewrite <- !app_assoc.
        + exists []. simpl. by rewrite <- !app_assoc. }
    exists last. rewrite Hrun. eauto.
  - intros e report_dir out_dir gen w p w1 Hpw Hbuild.
    assert (Pkg.build e report_dir out_dir true gen w
            = (Raise (TyperExit 1), printed w1 [(Stdout, PkgPlaywrightMissing)])) as Hrun.
    { unfold Pkg.build. rewrite (bind_ok _ _ _ _ _ Hbuild).
      unfold Pkg.export_pdf. by rewrite Hpw. }
    rewrite Hrun. split; [done|]. split; [done|].
    by apply PkgFacts.pkg_build_html_ok in Hbuild as [_ ?].
Qed.

Lemma pdf_renderer_absent_witness :
  exit_status (Single.build Example.single_env (txt "config.yaml") (txt "build/report.pdf")
                 (txt "build/report.tmp.html") (Example.report_world Example.wrapper0)).1 = 0%Z ∧
  exit_status (Pkg.build Example.pkg_env (txt ".") (txt "dist") true false
                 Example.pkg_world).1 = 1%Z.
Proof.
  split.
  - edestruct (proj1 pdf_renderer_absent Example.single_env (txt "config.yaml")
                 (txt "build/report.pdf") (txt "build/report.tmp.html")
                 (Example.report_world Example.wrapper0)) as (last & _ & Hexit & _).
    + reflexivity.
    + vm_compute. reflexivity.
    + left. by vm_compute.
    + exact Hexit.
  - edestruct (proj2 pdf_renderer_absent Example.pkg_env (txt ".") (txt "dist") false
                 Example.pkg_world) as (_ & Hexit & _).
    + reflexivity.
    + vm_compute. reflexivity.
    + exact Hexit.
Defined.

(** C3, as stated, fails for the package: with [--pdf] and without
    Playwright the build writes the HTML and then ends with exit status 1. *)
Lemma package_build_exits_1_without_playwright :
  Pkg.playwright_available Example.pkg_env = false ∧
  exit_status (Pkg.build Example.pkg_env (txt ".") (txt "dist") true false
                 Example.pkg_world).1 = 1%Z ∧
  node_at (files (Pkg.build Example.pkg_env (txt ".") (txt "dist") true false
                    Example.pkg_world).2)
          (Example.REPORT ++ [txt "dist"; txt "report.html"])
  = Some (File Example.section_a).
Proof. by vm_compute. Qed.

(** ** lint *)

Import LintFacts.

(** C4, as amended.  In the single-file program, a section file counts
    exactly one missing-h1 error when BeautifulSoup is absent and the text
    holds no [<h1], or when BeautifulSoup finds a section in it and no h1
    inside that section; when BeautifulSoup finds no section, the file
    gets the missing-section error only.  When the checks run to their end,
    the exit status is non-zero exactly when at least one error was
    recorded (the warning about the order of the files is not one).  In the
    package, a file in which the parser finds no heading gets exactly one
    finding, the missing h1, and the exit status is non-zero exactly when
    something was found, the missing stylesheets included. *)
Theorem lint_missing_h1_and_exit_status :
  (∀ e config w errors w' name content,
     Single.lint_errors e config w = (Ok errors, w') →
     exists_ (files w) (sections_dir_of w config) = true →
     name ∈ glob (files w) (sections_dir_of w config) STAR_HTML →
     read_file (sections_dir_of w config ++ [name]) (files w) = inr content →
     missing_h1_count name errors =
       if Single.bs4_available e then
         match soup_find (txt "section") (Single.html_parser e content) with
         | None => 0
         | Some sect => match tag_find (txt "h1") sect with None => 1 | Some _ => 0 end
         end
       else if Str.contains (txt "<h1") content then 0 else 1) ∧
  (∀ e config w errors w',
     Single.lint_errors e config w = (Ok errors, w') →
     exit_status (Single.lint e config w).1 ≠ 0%Z ↔ errors ≠ []) ∧
  (∀ e name html soup,
     Pkg.lxml_parser e html = inr soup →
     soup_find_all Pkg.HEADINGS soup = [] →
     Pkg.check_section e name html = [PkgNeedH1 name]) ∧
  (∀ e report_dir w n w',
     Pkg.lint_count e report_dir w = (Ok n, w') →
     exit_status (Pkg.lint e report_dir w).1 ≠ 0%Z ↔ n ≠ 0).
Proof.
  split; [|split; [|split]].
  - intros e config w errors w' name content Hrun Hdir Hin Hread.
    rewrite <- (file_errors_h1 e name content).
    apply lint_errors_inv in Hrun as [_ [[Hex ->] | [Hex (contents & Hall & ->)]]];
      [congruence|].
    rewrite missing_h1_count_app.
    rewrite (lint_loop_count e _ _ _ _ name content (glob_NoDup _ _ _) Hall Hin Hread).
    unfold missing_h1_count at 1. by destruct (glob _ _ _).
  - intros e config w errors w' Hrun. rewrite (lint_verdict _ _ _ _ _ Hrun).
    by destruct errors.
  - intros e name html soup Hparse Hnone. unfold Pkg.check_section.
    by rewrite Hparse, Hnone.
  - intros e report_dir w n w' Hrun. rewrite (pkg_lint_verdict _ _ _ _ _ Hrun).
    by destruct n.
Qed.

Lemma lint_missing_h1_and_exit_status_witness :
  missing_h1_count (txt "01-a.html")
    [MissingSection (txt "01-a.html"); MissingH1 (txt "01-a.html")] = 1 ∧
  exit_status (Single.lint Example.plain_env (txt "config.yaml")
                 (Example.report_world Example.wrapper0)).1 ≠ 0%Z ∧
  Pkg.check_section Example.pkg_env (txt "01-a.html") Example.section_a
  = [PkgNeedH1 (txt "01-a.html")] ∧
  exit_status (Pkg.lint Example.pkg_env (txt ".") Example.pkg_world).1 ≠ 0%Z.
Proof.
  destruct lint_missing_h1_and_exit_status as (Hcount & Hexit & Hpkg & Hpkg_exit).
  split; [|split; [|split]].
  - apply (Hcount Example.plain_env (txt "config.yaml")
             (Example.report_world Example.wrapper0) _
             (Example.report_world Example.wrapper0) (txt "01-a.html") Example.section_a).
    + by vm_compute.
    + by vm_compute.
    + vm_compute. apply list_elem_of_here.
    + by vm_compute.
  - eapply (Hexit Example.plain_env (txt "config.yaml")
              (Example.report_world Example.wrapper0)
              [MissingSection (txt "01-a.html"); MissingH1 (txt "01-a.html")]).
    + vm_compute. reflexivity.
    + done.
  - by eapply (Hpkg Example.pkg_env).
  - eapply (Hpkg_exit Example.pkg_env (txt ".") Example.pkg_world 6).
    + vm_compute. reflexivity.
    + done.
Defined.

(** C4, as stated, fails: with BeautifulSoup installed, a section file
    without any heading and without a section element gets the
    missing-section error and no missing-h1 error. *)
Lemma lint_no_h1_error_without_section :
  Single.bs4_available Example.single_env = true ∧
  read_file (Example.REPORT ++ [txt "sections"; txt "01-a.html"])
            (Example.report_files Example.wrapper0) = inr (txt "<p>no heading here</p>") ∧
  (Single.lint_errors Example.single_env (txt "config.yaml")
     (Example.report_world Example.wrapper0)).1
  = Ok [MissingSection (txt "01-a.html")] ∧
  missing_h1_count (txt "01-a.html") [MissingSection (txt "01-a.html")] = 0.
Proof. by vm_compute. Qed.

(** ** init *)

Import InitFacts.



End Claims.

(** * Further properties of the two programs *)

Module Extras.
Import Os Cmd Spec StrFacts SortFacts CmdFacts SingleFacts LintFacts InitFacts FrameFacts.
Import CountFacts FsFacts TextFacts ScaffoldFacts PkgInitFacts PkgBuildFacts LintScopeFacts.


(** ** What the commands leave alone *)

(** X1: [lint] only reads and prints.  Whatever the report holds and
    however the run ends (passed, failed, or stopped by a file that cannot
    be read), the working directory and the file system are afterwards as
    they were; the console holds what it held, and then the lines of this
    run.  This is so for both programs. *)
Theorem lint_reads_only :
  (∀ e config w, ∃ l, (Single.lint e config w).2 = printed w l) ∧
  (∀ e report_dir w, ∃ l, (Pkg.lint e report_dir w).2 = printed w l).
Proof.
  split.
  - intros e config. change (read_only (Single.lint e config)).
    unfold Single.lint.
    repeat first [apply read_only_lint_errors | read_only_step].
  - intros e report_dir. change (read_only (Pkg.lint e report_dir)).
    unfold Pkg.lint.
    repeat first [apply read_only_lint_count | read_only_step].
Qed.

(** X2: [build] of the single-file program writes its two outputs and
    nothing else.  Whatever the outcome of the run, an entry of the file
    system that is neither the HTML output nor the PDF output is afterwards
    what it was: the configuration, the wrapper and the section files are
    never changed or removed (directories may have been created for the
    outputs).  The working directory stays the same. *)
Theorem build_changes_only_its_outputs e config out html_out w q n :
  let base := base_dir_of w config in
  let w' := (Single.build e config out html_out w).2 in
  q ≠ resolve (cwd w) (join_path (pure base) (parse_path html_out)) →
  q ≠ resolve (cwd w) (join_path (pure base) (parse_path out)) →
  lookup (files w) q = Some n →
  cwd w' = cwd w ∧ lookup (files w') q = Some n.
Proof.
  intros base w' Hhtml Hpdf Hq.
  destruct (keeps_build e (cwd w) config out html_out w eq_refl) as [Hcwd Hkeep].
  split; [done|]. apply Hkeep; [|done].
  unfold base, base_dir_of in *. intros [?|?]; congruence.
Qed.

Lemma build_changes_only_its_outputs_witness :
  lookup (files (Single.build Example.single_env (txt "config.yaml")
                   (txt "build/report.pdf") (txt "build/report.tmp.html")
                   (Example.report_world Example.wrapper0)).2)
         (Example.REPORT ++ [txt "report.html"])
  = Some (File Example.wrapper0).
Proof.
  apply (build_changes_only_its_outputs Example.single_env (txt "config.yaml")
           (txt "build/report.pdf") (txt "build/report.tmp.html")
           (Example.report_world Example.wrapper0)
           (Example.REPORT ++ [txt "report.html"]) (File Example.wrapper0)).
  - by vm_compute.
  - by vm_compute.
  - by vm_compute.
Defined.


(** ** The checks of the package *)

(** X3: the heading check of the package's [lint] reports a file exactly
    when, somewhere in the file, a heading is followed by a heading more
    than one level deeper (h1 then h3, h2 then h4, ...).  The level of the
    first heading is free, and going back up by any number of levels is
    never reported. *)
Theorem heading_skip_is_an_adjacent_jump (hs : list text) :
  Pkg.skips_level 0 hs = true ↔
  ∃ l1 a b l2, hs = l1 ++ a :: b :: l2 ∧ Pkg.level a + 1 < Pkg.level b.
Proof.
  rewrite skips_level_from. split; [|by right].
  intros [[? _] | H]; done.
Qed.

(** X4: the counter of the package's [lint] is the number of lines that
    the checks have printed: every finding (a missing stylesheet, a parse
    error, a missing h1, a skipped heading level) prints one line and
    counts once.  With no finding the run prints that the lint passed and
    nothing else; otherwise the closing line gives the number of lines
    before it, and the run ends with exit status 1. *)
Theorem lint_counts_printed_lines e report_dir w n w' :
  Pkg.lint_count e report_dir w = (Ok n, w') →
  ∃ l, w' = printed w l ∧ length l = n ∧
       Pkg.lint e report_dir w =
       match n with
       | O => (Ok tt, printed w [(Stdout, PkgLintPassed)])
       | S _ => (Raise (TyperExit 1),
                 printed w (l ++ [(Stdout, PkgLintFailed (length l))]))
       end.
Proof.
  intros H. destruct (lint_count_lines _ _ _ _ _ H) as (l & -> & ->).
  exists l. split; [done|]. split; [done|].
  rewrite (pkg_lint_verdict _ _ _ _ _ H).
  destruct l; simpl; [by rewrite printed_nil | by rewrite printed_app].
Qed.

Lemma lint_counts_printed_lines_witness :
  ∃ l, length l = 6 ∧
       Pkg.lint Example.pkg_env (txt ".") Example.pkg_world
       = (Raise (TyperExit 1),
          printed Example.pkg_world (l ++ [(Stdout, PkgLintFailed (length l))])).
Proof.
  destruct (lint_counts_printed_lines Example.pkg_env (txt ".") Example.pkg_world 6
              (Pkg.lint_count Example.pkg_env (txt ".") Example.pkg_world).2)
    as (l & _ & Hl & Hrun).
  - vm_compute. reflexivity.
  - exists l. split; [exact Hl | exact Hrun].
Defined.

(** X21: [lint] of the single-file program looks at the sections
    directory and at nothing else.  Run in the same working directory on
    two file systems that hold the same entries at and below the sections
    directory, in the same order, it has the same outcome and prints the
    same lines: what the configuration file, the wrapper or the style
    sheets hold, and whether they are there at all, makes no difference. *)
Theorem lint_looks_at_sections_only e config w1 w2 :
  cwd w1 = cwd w2 →
  below (sections_dir_of w1 config) (files w1)
  = below (sections_dir_of w1 config) (files w2) →
  ∃ r l, Single.lint e config w1 = (r, printed w1 l) ∧
         Single.lint e config w2 = (r, printed w2 l).
Proof.
  intros Hcwd Hbelow.
  destruct (lint_errors_alike e config w1 w2 Hcwd Hbelow) as (r & l & H1 & H2).
  unfold Single.lint, bind at 1 3. rewrite H1, H2.
  destruct r as [[|err errors]|x].
  - exists (Ok tt), (l ++ [(Stdout, LintPassed)]). by rewrite !echo_run, !printed_app.
  - exists (Raise (SystemExit 1)),
           (l ++ map (λ x, (Stdout, LintError x)) (err :: errors)).
    unfold bind. by rewrite !for_each_echo, !printed_app.
  - by exists (Raise x), l.
Qed.

Lemma lint_looks_at_sections_only_witness :
  (Single.lint Example.plain_env (txt "config.yaml")
     (Example.report_world Example.wrapper0)).1
  = (Single.lint Example.plain_env (txt "config.yaml")
       {| cwd := Example.REPORT;
          files := [ (Example.REPORT ++ [txt "sections"], Dir);
                     (Example.REPORT ++ [txt "sections"; txt "01-a.html"],
                      File Example.section_a) ];
          console := [] |}).1.
Proof.
  destruct (lint_looks_at_sections_only Example.plain_env (txt "config.yaml")
              (Example.report_world Example.wrapper0)
              {| cwd := Example.REPORT;
                 files := [ (Example.REPORT ++ [txt "sections"], Dir);
                            (Example.REPORT ++ [txt "sections"; txt "01-a.html"],
                             File Example.section_a) ];
                 console := [] |}) as (r & l & H1 & H2).
  - reflexivity.
  - by vm_compute.
  - by rewrite H1, H2.
Defined.

(** ** Writing and reading back *)



(** ** Substitution *)

Lemma placeholders_are_tokens :
  Forall (λ tk : text * (Single.Config → text), placeholder_token tk.1) Single.PLACEHOLDERS.
Proof.
  repeat constructor.
  - exists (txt "TITLE"). split; [done|]. split; refine (bool_decide_unpack _ _); by vm_compute.
  - exists (txt "SUBTITLE"). split; [done|]. split; refine (bool_decide_unpack _ _); by vm_compute.
  - exists (txt "PREPARED"). split; [done|]. split; refine (bool_decide_unpack _ _); by vm_compute.
  - exists (txt "KICKER"). split; [done|]. split; refine (bool_decide_unpack _ _); by vm_compute.
Qed.

(** X6: [apply_placeholders] works through a template from left to right.
    Text before the first opening bracket is copied as it is; a token
    ([[TITLE]], [[SUBTITLE]], [[PREPARED]], [[KICKER]]) at the front is
    replaced by the value that the configuration gives for it, when that
    value holds no opening bracket, and the substitution goes on behind it.
    So a text without opening bracket is returned unchanged. *)
Theorem apply_placeholders_left_to_right (cfg : Single.Config) :
  (∀ a b, LBRACKET ∉ a →
     Single.apply_placeholders (a ++ b) cfg = a ++ Single.apply_placeholders b cfg) ∧
  (∀ tk b, tk ∈ Single.PLACEHOLDERS → LBRACKET ∉ tk.2 cfg →
     Single.apply_placeholders (tk.1 ++ b) cfg
     = tk.2 cfg ++ Single.apply_placeholders b cfg) ∧
  (∀ a, LBRACKET ∉ a → Single.apply_placeholders a cfg = a).
Proof.
  assert (∀ a b, LBRACKET ∉ a →
            Single.apply_placeholders (a ++ b) cfg
            = a ++ Single.apply_placeholders b cfg) as Hprefix.
  { intros a b Ha. unfold Single.apply_placeholders.
    apply (subst_prefix (λ tk, tk.1) (λ tk, tk.2 cfg)); [|done].
    apply placeholders_are_tokens. }
  split; [done|]. split.
  - intros tk b Htk Hv. unfold Single.apply_placeholders.
    apply (subst_token (λ tk, tk.1) (λ tk, tk.2 cfg)); [|..|done|done].
    + apply placeholders_are_tokens.
    + refine (bool_decide_unpack _ _). by vm_compute.
  - intros a Ha. rewrite <- (app_nil_r a) at 1. rewrite Hprefix by done.
    by rewrite app_nil_r.
Qed.

Lemma apply_placeholders_left_to_right_witness :
  Single.apply_placeholders (txt "<h1>" ++ txt "[TITLE]" ++ txt "</h1>") Example.cfg0
  = txt "<h1>" ++ txt "Report" ++ txt "</h1>".
Proof.
  destruct (apply_placeholders_left_to_right Example.cfg0) as (Hprefix & Htoken & Hrest).
  etrans; [apply Hprefix; refine (bool_decide_unpack _ _); by vm_compute|].
  apply (f_equal (app (txt "<h1>"))).
  etrans; [apply (Htoken (txt "[TITLE]", Single.title) (txt "</h1>"));
           [apply list_elem_of_here | refine (bool_decide_unpack _ _); by vm_compute]|].
  apply (f_equal (app (txt "Report"))).
  apply Hrest. refine (bool_decide_unpack _ _). by vm_compute.
Defined.

(** The keys of the package's mapping: the four of the program, then the
    new keys of the configuration; no key twice. *)
Lemma placeholder_mapping_keys m extra :
  ∃ new, (Pkg.placeholder_mapping m extra).*1
         = [txt "TITLE"; txt "SUBTITLE"; txt "AUTHOR"; txt "DATE"] ++ new ∧
         new ⊆ (default [] extra).*1 ∧
         NoDup (Pkg.placeholder_mapping m extra).*1.
Proof.
  unfold Pkg.placeholder_mapping.
  match goal with
  | |- context [Pkg.dict_update ?d ?e] =>
      destruct (dict_update_keys e d) as (new & Hk & Hsub & Hnd)
  end.
  exists new. split; [exact Hk|]. split; [exact Hsub|].
  rewrite Hk. apply Hnd. refine (bool_decide_unpack _ _). by vm_compute.
Qed.

(** X7: the placeholders of the configuration override those of the
    program.  In the mapping of [substitute_placeholders], a key that the
    configuration's [placeholders] give has their value, also when it is
    one of TITLE, SUBTITLE, AUTHOR, DATE; every other key has the value it
    has without them.  The four keys of the program come first, in this
    order, whatever the configuration gives, and no key comes twice. *)
Theorem custom_placeholders_override m extra k :
  NoDup extra.*1 →
  Pkg.dict_get (Pkg.placeholder_mapping m (Some extra)) k
  = match Pkg.dict_get extra k with
    | Some v => Some v
    | None => Pkg.dict_get (Pkg.placeholder_mapping m None) k
    end ∧
  (∃ new, (Pkg.placeholder_mapping m (Some extra)).*1
          = [txt "TITLE"; txt "SUBTITLE"; txt "AUTHOR"; txt "DATE"] ++ new) ∧
  NoDup (Pkg.placeholder_mapping m (Some extra)).*1.
Proof.
  intros Hnd. split.
  - unfold Pkg.placeholder_mapping. simpl default. by rewrite dict_get_update.
  - destruct (placeholder_mapping_keys m (Some extra)) as (new & Hk & _ & Hn). eauto.
Qed.

Lemma custom_placeholders_override_witness :
  Pkg.dict_get
    (Pkg.placeholder_mapping [(txt "title", Pkg.SStr (txt "Report"))]
       (Some [(txt "TITLE", Pkg.SStr (txt "Other")); (txt "COMPANY", Pkg.SStr (txt "Acme"))]))
    (txt "TITLE")
  = Some (Pkg.SStr (txt "Other")).
Proof.
  apply (custom_placeholders_override [(txt "title", Pkg.SStr (txt "Report"))]
           [(txt "TITLE", Pkg.SStr (txt "Other")); (txt "COMPANY", Pkg.SStr (txt "Acme"))]
           (txt "TITLE")).
  refine (bool_decide_unpack _ _). by vm_compute.
Defined.

Lemma mapping_tokens m extra :
  Forall (λ kv : text * Pkg.scalar, plain_key kv.1) (default [] extra) →
  Forall (λ kv : text * Pkg.scalar, placeholder_token (Pkg.token kv.1))
         (Pkg.placeholder_mapping m extra) ∧
  NoDup ((λ kv : text * Pkg.scalar, Pkg.token kv.1) <$> Pkg.placeholder_mapping m extra).
Proof.
  intros Hplain.
  destruct (placeholder_mapping_keys m extra) as (new & Hk & Hsub & Hnd). split.
  - apply Forall_forall. intros [k v] Hkv. exists k. split; [done|]. simpl.
    assert (k ∈ (Pkg.placeholder_mapping m extra).*1) as Hin
      by (by apply (list_elem_of_fmap_2 fst _ (k, v))).
    rewrite Hk in Hin. apply elem_of_app in Hin as [Hin|Hin].
    + repeat (apply elem_of_cons in Hin as [->|Hin];
              [split; refine (bool_decide_unpack _ _); by vm_compute|]).
      by apply elem_of_nil in Hin.
    + apply Hsub, list_elem_of_fmap in Hin as ([k' v'] & -> & Hin).
      by apply (proj1 (Forall_forall _ _) Hplain (k', v')).
  - assert ((λ kv : text * Pkg.scalar, Pkg.token kv.1) <$> Pkg.placeholder_mapping m extra
            = Pkg.token <$> (Pkg.placeholder_mapping m extra).*1) as ->
      by (by rewrite <- list_fmap_compose).
    apply NoDup_fmap_2; [|done]. intros ?? E. by apply token_inj.
Qed.

(** X8: [substitute_placeholders] works through a text from left to right.
    When the keys of the configuration's [placeholders] hold no bracket:
    text before the first opening bracket is copied as it is, and a token
    [[KEY]] of the mapping at the front is replaced by the text of its
    value ([str(val)]), when that text holds no opening bracket, and the
    substitution goes on behind it. *)
Theorem substitute_placeholders_left_to_right m extra :
  Forall (λ kv : text * Pkg.scalar, plain_key kv.1) (default [] extra) →
  (∀ a b, LBRACKET ∉ a →
     Pkg.substitute_placeholders (a ++ b) m extra
     = a ++ Pkg.substitute_placeholders b m extra) ∧
  (∀ k v b, (k, v) ∈ Pkg.placeholder_mapping m extra → LBRACKET ∉ Pkg.py_str v →
     Pkg.substitute_placeholders (Pkg.token k ++ b) m extra
     = Pkg.py_str v ++ Pkg.substitute_placeholders b m extra).
Proof.
  intros Hplain. destruct (mapping_tokens m extra Hplain) as [Htok Hnd]. split.
  - intros a b Ha. unfold Pkg.substitute_placeholders.
    by apply (subst_prefix (λ kv, Pkg.token kv.1) (λ kv, Pkg.py_str kv.2)).
  - intros k v b Hkv Hv. unfold Pkg.substitute_placeholders.
    by apply (subst_token (λ kv, Pkg.token kv.1) (λ kv, Pkg.py_str kv.2) _ (k, v)).
Qed.

Lemma substitute_placeholders_left_to_right_witness :
  Pkg.substitute_placeholders (txt "<p>" ++ Pkg.token (txt "DATE") ++ txt "</p>")
    [(txt "date", Pkg.SInt 2025)] (Some [(txt "COMPANY", Pkg.SStr (txt "Acme"))])
  = txt "<p>" ++ txt "2025" ++ Pkg.substitute_placeholders (txt "</p>")
      [(txt "date", Pkg.SInt 2025)] (Some [(txt "COMPANY", Pkg.SStr (txt "Acme"))]).
Proof.
  destruct (substitute_placeholders_left_to_right [(txt "date", Pkg.SInt 2025)]
              (Some [(txt "COMPANY", Pkg.SStr (txt "Acme"))])) as [Hprefix Htoken].
  - repeat constructor; refine (bool_decide_unpack _ _); by vm_compute.
  - etrans; [apply Hprefix; refine (bool_decide_unpack _ _); by vm_compute|].
    apply (f_equal (app (txt "<p>"))).
    apply (Htoken (txt "DATE") (Pkg.SInt 2025) (txt "</p>")).
    + vm_compute. repeat constructor.
    + refine (bool_decide_unpack _ _). by vm_compute.
Defined.

(** ** The injected configuration *)

(** X9: [inject_boot_config] puts the script before every closing head
    tag, from left to right, and changes nothing else: a text without
    [</head>] is returned as it is (no configuration is injected); and when
    the first [</head>] is at index [i], the result is the text before it,
    the script, a newline and the tag, and then the rest of the text
    treated in the same way. *)
Theorem boot_config_before_every_head_end html cfg :
  (Str.find (txt "</head>") html = None →
   Single.inject_boot_config html cfg = html) ∧
  (∀ i, Str.find (txt "</head>") html = Some i →
     Single.inject_boot_config html cfg
     = take i html ++ Single.boot_script cfg ++ [LF] ++ txt "</head>" ++
       Single.inject_boot_config (drop (i + 7) html) cfg).
Proof.
  unfold Single.inject_boot_config. split.
  - intros H. apply replace_absent. by apply find_none.
  - intros i H. rewrite (replace_find _ _ _ i) by done.
    by rewrite <- !app_assoc.
Qed.

Lemma boot_config_before_every_head_end_witness :
  Single.inject_boot_config Example.wrapper0 Example.cfg0
  = take 34 Example.wrapper0 ++ Single.boot_script Example.cfg0 ++ [LF] ++
    txt "</head>" ++ drop 41 Example.wrapper0.
Proof.
  destruct (boot_config_before_every_head_end Example.wrapper0 Example.cfg0)
    as [Hnone Hsome].
  rewrite (Hsome 34) by (by vm_compute).
  apply (f_equal (app (take 34 Example.wrapper0))).
  apply (f_equal (app (Single.boot_script Example.cfg0))).
  apply (f_equal (app [LF])). apply (f_equal (app (txt "</head>"))).
  apply (proj1 (boot_config_before_every_head_end (drop (34 + 7) Example.wrapper0)
                  Example.cfg0)).
  by vm_compute.
Defined.

(** ** The numeric prefix of a file name *)

(** X10: the numeric prefix that orders the sections is the one of the
    pattern [^(\d+)[-_]]: a file name has the prefix [n] exactly when it
    starts with one or more digits that are followed by a hyphen or an
    underscore, and [n] is the number that these digits (all of them)
    write. *)
Theorem numeric_prefix_matches_pattern name n :
  Single.numeric_prefix name = Some n ↔
  ∃ ds sep rest,
    name = ds ++ sep :: rest ∧ ds ≠ [] ∧
    Forall (λ c, Py.is_digit c = true) ds ∧
    (sep = "-"%char ∨ sep = "_"%char) ∧
    n = Py.int ds.
Proof.
  unfold Single.numeric_prefix. split.
  - destruct (span_digits_spec name) as (Hname & Hds & _).
    destruct (Py.span_digits name) as [[|d ds] [|c r]]; simpl in *; try done.
    destruct (Ascii.eqb_spec c "-") as [->|]; simpl.
    { intros [= <-]. exists (d :: ds), "-"%char, r. eauto 10. }
    destruct (Ascii.eqb_spec c "_") as [->|]; simpl; [|done].
    intros [= <-]. exists (d :: ds), "_"%char, r. eauto 10.
  - intros (ds & sep & rest & -> & Hne & Hds & Hsep & ->).
    rewrite span_digits_app by (done || by destruct Hsep as [-> | ->]).
    destruct ds as [|d ds]; [done|].
    by destruct Hsep as [-> | ->].
Qed.

(** ** A new report *)



Lemma base_of_config w :
  clean (cwd w) → base_dir_of w (txt "config.yaml") = cwd w.
Proof.
  intros Hclean. unfold base_dir_of.
  rewrite resolve_clean by (vm_compute; repeat constructor; discriminate).
  change (absolute (parse_path (txt "config.yaml"))) with false. cbv iota.
  rewrite collapse_idem by done.
  change (parts (parse_path (txt "config.yaml"))) with [txt "config.yaml"].
  rewrite parent_app by done. apply app_nil_r.
Qed.

(** X12: a freshly made report passes [lint].  In a working directory
    that holds exactly the scaffold, and with the checks made on the text
    (BeautifulSoup not installed), [lint] finds the three sample sections,
    gives no warning about their order, records no error and reports that
    the lint passed, with exit status 0. *)
Theorem scaffold_passes_lint R C e w :
  Single.bs4_available e = false →
  clean (cwd w) →
  (∀ q, node_at (files w) (cwd w ++ q) = node_at (scaffold_tree R C) q) →
  Single.lint e (txt "config.yaml") w = (Ok tt, printed w [(Stdout, LintPassed)]) ∧
  exit_status (Single.lint e (txt "config.yaml") w).1 = 0%Z.
Proof.
  intros Hbs Hclean Hm.
  assert (Single.lint_errors e (txt "config.yaml") w = (Ok [], w)) as Herr.
  { pose proof (base_of_config w Hclean) as Hbase. unfold base_dir_of in Hbase.
    unfold Single.lint_errors.
    rewrite (bind_ok _ _ _ _ _ (eq_refl : get_cwd w = (Ok (cwd w), w))). cbv beta.
    rewrite Hbase.
    rewrite (bind_ok _ _ _ _ _ (eq_refl : get_files w = (Ok (files w), w))). cbv beta.
    assert (exists_ (files w) (cwd w ++ [txt "sections"]) = true) as ->
      by (unfold exists_; by rewrite Hm).
    cbn [negb].
    set (names := glob (files w) (cwd w ++ [txt "sections"]) STAR_HTML).
    assert (∀ n, n ∈ names ↔ n ∈ Single.SAMPLE_SECTIONS.*1) as Hnames.
    { intros n. unfold names. rewrite glob_html_spec, <- (scaffold_section_names R C).
      rewrite <- app_assoc. cbn [app].
      rewrite <- (node_at_app_lookup (files w) (cwd w) (txt "sections") [n]), Hm.
      simpl node_at. split; [tauto|]. intros H. split; [done|].
      apply scaffold_section_names in H. simpl in H.
      repeat (apply elem_of_cons in H as [->|H];
              [apply (glob_match_star_lits (txt ".html")); by vm_compute|]).
      by apply elem_of_nil in H. }
    assert (names ≡ₚ Single.SAMPLE_SECTIONS.*1) as Hperm.
    { apply NoDup_Permutation; [apply glob_NoDup | | done].
      refine (bool_decide_unpack _ _). by vm_compute. }
    destruct (three_sorted_alike names Hperm) as [Hplain Hkey].
    rewrite (bind_ok _ _ _ _ _
               (eq_refl : Single.discover_sections (cwd w ++ [txt "sections"]) w
                          = (Ok (Single.section_order names), w))). cbv beta.
    unfold Single.section_order.
    rewrite Hplain, Hkey. rewrite bool_decide_eq_true_2 by done.
    rewrite (bind_ok _ _ _ _ _ (eq_refl : ret tt w = (Ok tt, w))). cbv beta.
    assert (match names with [] => [SectionsEmpty] | _ :: _ => [] end = []) as ->.
    { destruct names; [|done]. by apply Permutation_nil_l in Hperm. }
    apply lint_loop_clean. apply Forall_forall. intros n Hn.
    apply Hnames in Hn. unfold read_file. rewrite <- app_assoc. cbn [app].
    rewrite Hm. unfold Single.file_errors. rewrite Hbs. simpl in Hn.
    repeat (apply elem_of_cons in Hn as [->|Hn];
            [eexists; split; [by vm_compute | by vm_compute]|]).
    by apply elem_of_nil in Hn. }
  rewrite (lint_verdict _ _ _ _ _ Herr). done.
Qed.

Lemma scaffold_passes_lint_witness :
  Single.lint Example.plain_env (txt "config.yaml") Example.scaffold_world
  = (Ok tt, printed Example.scaffold_world [(Stdout, LintPassed)]).
Proof.
  apply (scaffold_passes_lint [] [] Example.plain_env Example.scaffold_world).
  - reflexivity.
  - vm_compute. repeat constructor; discriminate.
  - intros q. apply node_at_rerooted; [done | by vm_compute].
Defined.

(** ** A new report of the package *)



(** The loop of the package's [lint] over stylesheets that are missing. *)
Lemma style_loop_missing (rdir : ppath) items : ∀ acc w,
  (∀ css, css ∈ items →
     exists_ (files w) (resolve (cwd w) (Pkg.child (Pkg.child rdir "style") css)) = false) →
  fold_cmd (λ errors css,
      let* there := path_exists (Pkg.child (Pkg.child rdir "style") css) in
      if there then ret errors
      else let* _ := echo Stdout (PkgStyleMissing (txt css)) in ret (errors + 1))
    acc items w
  = (Ok (acc + length items),
     printed w (map (λ css, (Stdout, PkgStyleMissing (txt css))) items)).
Proof.
  induction items as [|css items IH]; intros acc w Hall.
  - simpl. by rewrite Nat.add_0_r, printed_nil.
  - cbn [fold_cmd]. rewrite bind_bind.
    rewrite (bind_ok _ _ _ _ _ (path_exists_run _ w)).
    rewrite Hall by apply list_elem_of_here. cbv beta iota. rewrite bind_bind.
    rewrite (bind_ok _ _ _ _ _ (echo_run _ _ w)). rewrite bind_ret.
    rewrite IH.
    + rewrite printed_app. simpl. do 2 f_equal. lia.
    + intros c Hc. simpl. apply Hall. by right.
Qed.

(** X14: a freshly made report of the package does not pass the package's
    [lint].  In a working directory that holds exactly the scaffold of
    [init], [lint] reports the five stylesheets as missing (the style
    directory is empty), then what the parser finds in the sample section,
    and ends with the count of these lines and exit status 1. *)
Theorem package_scaffold_fails_lint Y e w :
  clean (cwd w) →
  (∀ q, node_at (files w) (cwd w ++ q) = node_at (pkg_scaffold_tree Y) q) →
  let found := Pkg.check_section e (txt "01-introduction.html")
                 (txt "<section><h1>Introduction</h1><p>Start here.</p></section>") in
  Pkg.lint e (txt ".") w
  = (Raise (TyperExit 1),
     printed w (map (λ css, (Stdout, PkgStyleMissing (txt css))) Pkg.MUST_CSS ++
                map (λ m, (Stdout, m)) found ++
                [(Stdout, PkgLintFailed (5 + length found))])) ∧
  exit_status (Pkg.lint e (txt ".") w).1 = 1%Z.
Proof.
  intros Hclean Hm found.
  assert (∀ q, clean q → resolve (cwd w) (PPath false q) = cwd w ++ q) as Hres.
  { intros q Hq. rewrite resolve_clean by done. simpl. by rewrite collapse_idem. }
  set (names := glob (files w) (cwd w ++ [txt "sections"]) STAR_HTML).
  assert (names ≡ₚ [txt "01-introduction.html"]) as Hperm.
  { apply NoDup_Permutation; [apply glob_NoDup | apply NoDup_singleton |].
    intros n. unfold names. rewrite glob_html_spec, list_elem_of_singleton.
    rewrite <- app_assoc. cbn [app].
    rewrite <- (node_at_app_lookup (files w) (cwd w) (txt "sections") [n]), Hm.
    split.
    - intros [[nd Hnd] _]. unfold pkg_scaffold_tree in Hnd. simpl in Hnd.
      repeat (destruct (decide _) as [E|E] in Hnd; [by simplify_eq|]). done.
    - intros ->. split; [eexists; reflexivity|].
      apply (glob_match_star_lits (txt ".html")). by vm_compute. }
  apply Permutation_singleton_r in Hperm.
  assert (∀ css, css ∈ Pkg.MUST_CSS →
            exists_ (files w)
              (resolve (cwd w) (Pkg.child (Pkg.child (parse_path (txt ".")) "style") css))
            = false) as Hstyle.
  { intros css Hcss. unfold Pkg.MUST_CSS in Hcss.
    repeat (apply elem_of_cons in Hcss as [->|Hcss];
            [match goal with
             | |- context [resolve (cwd w) ?p] =>
                 let p' := eval vm_compute in p in change p with p'
             end;
             rewrite Hres by (repeat constructor; discriminate);
             unfold exists_; rewrite Hm; by vm_compute|]).
    by apply elem_of_nil in Hcss. }
  assert (Pkg.lint_count e (txt ".") w
          = (Ok (5 + length found),
             printed w (map (λ css, (Stdout, PkgStyleMissing (txt css))) Pkg.MUST_CSS ++
                        map (λ m, (Stdout, m)) found))) as Hcount.
  { unfold Pkg.lint_count.
    rewrite (bind_ok _ _ _ _ _
               (eq_refl : Pkg.find_sections (Pkg.child (parse_path (txt ".")) "sections")
                            STAR_HTML w
                          = (Ok (Pkg.sort_names
                                   (glob (files w)
                                      (resolve (cwd w)
                                         (Pkg.child (parse_path (txt ".")) "sections"))
                                      STAR_HTML)), w))).
    cbv beta.
    change (Pkg.child (parse_path (txt ".")) "sections") with (PPath false [txt "sections"]).
    rewrite Hres by (repeat constructor; discriminate).
    fold names. rewrite Hperm.
    change (Pkg.sort_names [txt "01-introduction.html"]) with [txt "01-introduction.html"].
    rewrite (bind_ok _ _ _ _ _
               (style_loop_missing (parse_path (txt ".")) Pkg.MUST_CSS 0 w Hstyle)).
    cbn [fold_cmd]. rewrite bind_bind.
    unfold bind at 1. rewrite pkg_read_text_run.
    cbn [cwd files printed].
    change (join_path (PPath false [txt "sections"])
              (PPath false [txt "01-introduction.html"]))
      with (PPath false [txt "sections"; txt "01-introduction.html"]).
    rewrite Hres by (repeat constructor; discriminate).
    unfold read_file. rewrite Hm.
    change (node_at (pkg_scaffold_tree Y) [txt "sections"; txt "01-introduction.html"])
      with (Some (File (txt "<section><h1>Introduction</h1><p>Start here.</p></section>"))).
    cbv beta iota. fold found.
    rewrite bind_bind, (bind_ok _ _ _ _ _ (for_each_echo (λ m, m) Stdout found _)).
    rewrite !bind_ret, printed_app. done. }
  assert (Pkg.lint e (txt ".") w
          = (Raise (TyperExit 1),
             printed w (map (λ css, (Stdout, PkgStyleMissing (txt css))) Pkg.MUST_CSS ++
                        map (λ m, (Stdout, m)) found ++
                        [(Stdout, PkgLintFailed (5 + length found))]))) as ->; [|done].
  rewrite (pkg_lint_verdict _ _ _ _ _ Hcount).
  change (5 + length found) with (S (4 + length found)). cbv iota.
  by rewrite printed_app, <- app_assoc.
Qed.

Lemma package_scaffold_fails_lint_witness :
  exit_status (Pkg.lint Example.pkg_env (txt ".") Example.pkg_scaffold_world).1 = 1%Z.
Proof.
  apply (package_scaffold_fails_lint [] Example.pkg_env Example.pkg_scaffold_world).
  - vm_compute. repeat constructor; discriminate.
  - intros q. apply node_at_rerooted; [done | by vm_compute].
Defined.

(** ** The build of the package *)

(** X15: the package's [build] needs at least one section.  When the
    pattern of the configuration (or [*.html]) matches no file in the
    sections directory, the run prints that the sections are empty and ends
    with exit status 1 before anything is written or removed: the file
    system, an output directory of an earlier build included, stays as it
    was. *)
Theorem package_build_needs_sections e report_dir out_dir pdf gen w cfg w0 :
  let rdir := parse_path report_dir in
  Pkg.read_config e (Pkg.child rdir "config.yaml") w = (Ok cfg, w0) →
  glob (files w) (resolve (cwd w) (Pkg.child rdir "sections"))
       (default STAR_HTML (Pkg.section_glob cfg)) = [] →
  Pkg.build e report_dir out_dir pdf gen w
  = (Raise (TyperExit 1), printed w [(Stdout, PkgSectionsEmpty)]) ∧
  files (Pkg.build e report_dir out_dir pdf gen w).2 = files w ∧
  exit_status (Pkg.build e report_dir out_dir pdf gen w).1 = 1%Z.
Proof.
  intros rdir Hcfg Hglob.
  pose proof (read_config_ok _ _ _ _ _ Hcfg) as ->.
  assert (Pkg.build e report_dir out_dir pdf gen w
          = (Raise (TyperExit 1), printed w [(Stdout, PkgSectionsEmpty)])) as ->; [|done].
  unfold Pkg.build, Pkg.build_html. cbv zeta. fold rdir.
  unfold bind at 1. rewrite (bind_ok _ _ _ _ _ Hcfg).
  rewrite (bind_ok _ _ _ _ _
             (eq_refl : Pkg.find_sections (Pkg.child rdir "sections")
                          (default STAR_HTML (Pkg.section_glob cfg)) w
                        = (Ok (Pkg.sort_names
                                 (glob (files w)
                                    (resolve (cwd w) (Pkg.child rdir "sections"))
                                    (default STAR_HTML (Pkg.section_glob cfg)))), w))).
  rewrite Hglob. reflexivity.
Qed.

Lemma package_build_needs_sections_witness :
  Pkg.build Example.pkg_env (txt "images") (txt "dist") false false Example.pkg_world
  = (Raise (TyperExit 1), printed Example.pkg_world [(Stdout, PkgSectionsEmpty)]).
Proof.
  apply (package_build_needs_sections Example.pkg_env (txt "images") (txt "dist") false false
           Example.pkg_world Pkg.empty_config Example.pkg_world).
  - by vm_compute.
  - by vm_compute.
Defined.

(** X16: what the package's [build] renders.  When the HTML part of the
    build has succeeded, the report file holds the text that the template
    gave for: the texts of the section files that match the pattern, in
    ascending order of their names, each with its placeholders substituted
    (read before the output directory was touched); the [meta] and the
    theme address of the configuration; and a style base that is [theme],
    [style] or none.  There is at least one section, and the last line
    printed names the report file. *)
Theorem package_build_renders_sections e report_dir out_dir gen w p w1 :
  Pkg.build_html e report_dir out_dir gen w = (Ok p, w1) →
  let rdir := parse_path report_dir in
  let sections_dir := Pkg.child rdir "sections" in
  ∃ cfg contents hb html,
    Pkg.read_config e (Pkg.child rdir "config.yaml") w = (Ok cfg, w) ∧
    let names := Pkg.sort_names (glob (files w) (resolve (cwd w) sections_dir)
                                   (default STAR_HTML (Pkg.section_glob cfg))) in
    names ≠ [] ∧
    Forall2 (λ n c, read_file (resolve (cwd w) (join_path sections_dir (PPath false [n])))
                      (files w) = inr c) names contents ∧
    hb ∈ [None; Some (txt "theme"); Some (txt "style")] ∧
    Pkg.render_template e
      (map (λ c, Pkg.substitute_placeholders c (Pkg.meta cfg) (Pkg.placeholders cfg)) contents)
      (Pkg.meta cfg) (Pkg.theme_base_url cfg) hb = inr html ∧
    p = Pkg.child (parse_path out_dir) "report.html" ∧
    node_at (files w1) (resolve (cwd w) p) = Some (File html) ∧
    last (console w1) = Some (Stdout, PkgHtml p).
Proof.
  unfold Pkg.build_html. cbv zeta. intros H.
  apply bind_ok_inv in H as (cfg & w2 & Hcfg & H).
  pose proof (read_config_ok _ _ _ _ _ Hcfg) as ->.
  apply bind_ok_inv in H as (names & w3 & Hnames & H).
  unfold Pkg.find_sections, locate, bind at 1 2 3, get_cwd, get_files, ret in Hnames.
  simpl in Hnames. injection Hnames as <- <-.
  apply bind_ok_inv in H as ([] & w4 & Hne & H).
  assert (w4 = w ∧ Pkg.sort_names
                      (glob (files w) (resolve (cwd w) (Pkg.child (parse_path report_dir) "sections"))
                         (default STAR_HTML (Pkg.section_glob cfg))) ≠ []) as [-> Hne'].
  { destruct (Pkg.sort_names _); [done|]. by injection Hne as <-. }
  apply bind_ok_inv in H as (htmls & w5 & Hread & H).
  apply read_sections_ok in Hread as (-> & contents & Hall & ->).
  apply bind_ok_inv in H as (there & w6 & H6 & H).
  rewrite path_exists_run in H6. injection H6 as <- <-.
  apply bind_ok_inv in H as ([] & w7 & H7 & H).
  assert (cwd w7 = cwd w) as Hc7.
  { match type of H7 with ?c w = _ =>
      assert (keeps_outside (cwd w) (λ _, True) c) as Hk
        by (repeat keeps_step; by intros) end.
    destruct (Hk w eq_refl) as [Hk1 _]. by rewrite H7 in Hk1. }
  apply bind_ok_inv in H as (dp & w8 & H8 & H).
  unfold locate, bind, get_cwd, ret in H8. simpl in H8. injection H8 as <- <-.
  apply bind_ok_inv in H as ([] & w9 & H9 & H).
  assert (cwd w9 = cwd w) as Hc9.
  { rewrite update_run in H9. destruct (mkdir_parents _ _); [done|].
    by injection H9 as <-. }
  apply bind_ok_inv in H as (images_there & w10 & H10 & H).
  rewrite path_exists_run in H10. injection H10 as <- <-.
  apply bind_ok_inv in H as ([] & w11 & H11 & H).
  assert (cwd w11 = cwd w) as Hc11.
  { match type of H11 with ?c w9 = _ =>
      assert (keeps_outside (cwd w9) (λ _, True) c) as Hk
        by (repeat keeps_step; by intros) end.
    destruct (Hk w9 eq_refl) as [Hk1 _]. rewrite H11 in Hk1. simpl in Hk1. congruence. }
  apply bind_ok_inv in H as (diagrams_there & w12 & H12 & H).
  rewrite path_exists_run in H12. injection H12 as <- <-.
  apply bind_ok_inv in H as ([] & w13 & H13 & H).
  assert (cwd w13 = cwd w) as Hc13.
  { match type of H13 with ?c w11 = _ =>
      assert (keeps_outside (cwd w11) (λ _, True) c) as Hk
        by (destruct (gen && _); [apply stays_diagrams | repeat keeps_step]) end.
    destruct (Hk w11 eq_refl) as [Hk1 _]. rewrite H13 in Hk1. simpl in Hk1. congruence. }
  apply bind_ok_inv in H as (hb & w14 & H14 & H).
  assert (cwd w14 = cwd w) as Hc14.
  { destruct (stays_copy_theme (cwd w13) cfg (parse_path report_dir) (parse_path out_dir)
                w13 eq_refl) as [Hk1 _].
    rewrite H14 in Hk1. simpl in Hk1. congruence. }
  apply copy_theme_value in H14.
  apply bind_ok_inv in H as ([] & w15 & H15 & H).
  apply render_report_run in H15 as (html & Hrender & Hc15 & _ & Hfile).
  apply bind_ok_inv in H as ([] & w16 & H16 & H).
  unfold echo in H16. injection H16 as <-. injection H as <- <-.
  exists cfg, contents, hb, html.
  split; [done|]. split; [done|]. split; [done|]. split; [done|]. split; [done|].
  split; [done|]. split.
  - simpl. by rewrite <- Hc14.
  - simpl. apply last_snoc.
Qed.

Lemma package_build_renders_sections_witness :
  ∃ html,
    Pkg.render_template Example.pkg_env [Example.section_a] [] None None = inr html ∧
    node_at (files (Pkg.build_html Example.pkg_env (txt ".") (txt "dist") false
                      Example.pkg_world).2)
            (Example.REPORT ++ [txt "dist"; txt "report.html"])
    = Some (File html).
Proof.
  destruct (package_build_renders_sections Example.pkg_env (txt ".") (txt "dist") false
              Example.pkg_world (Pkg.child (parse_path (txt "dist")) "report.html")
              (Pkg.build_html Example.pkg_env (txt ".") (txt "dist") false
                 Example.pkg_world).2)
    as (cfg & contents & hb & html & _ & _ & _ & _ & _ & _ & Hfile & _).
  - vm_compute. reflexivity.
  - exists html. split; [|exact Hfile].
    vm_compute in Hfile. injection Hfile as <-. reflexivity.
Defined.





(** ** The build of the single-file program *)





End Extras.
